(** * Durable entities: the batch processor of [src/entity.ts]

    A shallow embedding of the class [Entity] (its batch loop [handle], the
    per-operation context built by [getCurrentDurableEntityContext], the
    context operations and the method-dispatch helper [dispatch]) together
    with the part of the JavaScript run time it leans on: values and their
    truthiness, [JSON.stringify] and [JSON.parse], property lookup along a
    prototype chain, [Object.assign], argument spreading, and the job queue
    that runs what follows an [await].

    Layout: [JS] (values and objects), [JSON] (the codec), [Classes] (the
    records of [./classes]), [Entity] (the class itself), [Trace] (runs as
    sequences of steps), [Pred] and [Reading] (what the statements and the
    proofs speak of), [Counter] (an entity to run), then the facts about
    each part and the properties of the whole. *)

From Stdlib Require Import ZArith String Ascii List Bool Lia.
From Stdlib Require Import DecimalString DecimalFacts DecimalZ DecimalN.
From stdpp Require Import base option list strings gmap.

Local Open Scope string_scope.
Local Open Scope Z_scope.

(* ===================================================================== *)
(** ** JavaScript values                                                  *)
(* ===================================================================== *)

Module JS.

Scheme All for list.
Scheme All for prod.

(** The kinds of [Error] objects met here. *)
Inductive ErrorKind := Error | TypeError | SyntaxError.

(** Data values.  Numbers are the integer-valued ones, kept as [Z]; an
    [Error] object is kept with its kind and message.  Functions are not data:
    they only occur as members of objects ([Slot] below).  A [BigInt] and an
    object that contains itself, the values on which [JSON.stringify] throws,
    are not among them. *)
Inductive Value : Type :=
| VUndefined
| VNull
| VBool (b : bool)
| VNum (n : Z)
| VStr (s : string)
| VArr (items : list Value)
| VObj (fields : list (string * Value))
| VError (kind : ErrorKind) (message : string).

(** The result of evaluating something that may [throw]. *)
Inductive Outcome (A : Type) : Type :=
| Normal (a : A)
| Thrown (e : Value).
Arguments Normal {A} a.
Arguments Thrown {A} e.

Definition error (msg : string) : Value := VError Error msg.

(** [ToBoolean]: what [if (x)], [!x], [x ? a : b] and [x && y] test. *)
Definition truthy (v : Value) : bool :=
  match v with
  | VUndefined | VNull => false
  | VBool b => b
  | VNum n => negb (n =? 0)
  | VStr s => negb (String.eqb s EmptyString)
  | VArr _ | VObj _ | VError _ _ => true
  end.

(** The same test on a [string | undefined]. *)
Definition truthy_text (t : option string) : bool :=
  match t with
  | Some s => negb (String.eqb s EmptyString)
  | None => false
  end.

(** *** Property keys and their order

    An object lists its integer-like keys first, in ascending order, and the
    others after them in the order of creation. *)

Definition array_index (k : string) : option N :=
  match NilZero.uint_of_string k with
  | Some d =>
      if Decimal.uint_beq (Decimal.unorm d) d
      then (let n := N.of_uint d in if (n <? 4294967295)%N then Some n else None)
      else None
  | None => None
  end.

Section Props.
Context {A : Type}.

Fixpoint get_own (k : string) (l : list (string * A)) : option A :=
  match l with
  | [] => None
  | (k', x) :: r => if String.eqb k k' then Some x else get_own k r
  end.

Fixpoint replace_own (k : string) (x : A) (l : list (string * A)) : list (string * A) :=
  match l with
  | [] => []
  | (k', x') :: r =>
      if String.eqb k k' then (k', x) :: r else (k', x') :: replace_own k x r
  end.

Fixpoint insert_index (n : N) (k : string) (x : A) (l : list (string * A)) : list (string * A) :=
  match l with
  | [] => [(k, x)]
  | (k', x') :: r =>
      match array_index k' with
      | Some n' => if (n' <? n)%N then (k', x') :: insert_index n k x r else (k, x) :: l
      | None => (k, x) :: l
      end
  end.

(** [o[k] = x] on own data properties. *)
Definition set_own (k : string) (x : A) (l : list (string * A)) : list (string * A) :=
  match get_own k l with
  | Some _ => replace_own k x l
  | None =>
      match array_index k with
      | Some n => insert_index n k x l
      | None => l ++ [(k, x)]
      end
  end.
End Props.

(** *** Objects with methods

    An entity object has own properties and a chain of prototypes, each a
    table of properties, ending in [Object.prototype].  A member is a data
    value or a function.  A function is named, not held: a user function by
    its number in the program's table, a built-in of [Object.prototype] by its
    name, and the closure that [createEntityProxy] makes by the property name
    it captures. *)
Inductive FunRef :=
| UserFn (id : nat)
| Native (name : string)
| Stub (p : string).

Inductive Slot :=
| Data (v : Value)
| Fn (f : FunRef).

Record Obj := mkObj {
  own : list (string * Slot);
  protos : list (list (string * Slot))
}.

(** [Object.getOwnPropertyNames(Object.prototype)]. *)
Definition Object_prototype_names : list string :=
  [ "constructor"; "__defineGetter__"; "__defineSetter__"; "hasOwnProperty";
    "__lookupGetter__"; "__lookupSetter__"; "isPrototypeOf";
    "propertyIsEnumerable"; "toString"; "valueOf"; "__proto__";
    "toLocaleString" ].

(** [Object.prototype[p]]: every name above is a function but [__proto__],
    an accessor, which reads as the prototype (an object, or [null]). *)
Definition Object_prototype_get (p : string) : option Slot :=
  if String.eqb p "__proto__" then Some (Data VNull)
  else if existsb (String.eqb p) Object_prototype_names then Some (Fn (Native p))
  else None.

Fixpoint get_chain (p : string) (chain : list (list (string * Slot))) : option Slot :=
  match chain with
  | [] => Object_prototype_get p
  | t :: rest =>
      match get_own p t with
      | Some s => Some s
      | None => get_chain p rest
      end
  end.

(** [o[p]]; [None] is [undefined]. *)
Definition get (o : Obj) (p : string) : option Slot :=
  get_chain p (own o :: protos o).

(** [typeof o[p] === "function"]. *)
Definition is_function (s : option Slot) : bool :=
  match s with
  | Some (Fn _) => true
  | _ => false
  end.

(** [o[p] = s]: an ordinary assignment creates or updates an own property. *)
Definition set (o : Obj) (p : string) (s : Slot) : Obj :=
  mkObj (set_own p s (own o)) (protos o).

(** [v.p] on a data value, for the two reads of [signalEntity].  Reading a
    property of [undefined] or [null] throws. *)
Definition get_member (v : Value) (p : string) : Outcome Value :=
  match v with
  | VUndefined | VNull =>
      Thrown (VError TypeError "Cannot read properties of undefined")
  | VObj fs => Normal (default VUndefined (get_own p fs))
  | VError _ m => Normal (if String.eqb p "message" then VStr m else VUndefined)
  | _ => Normal VUndefined
  end.

Definition index_key (i : nat) : string := NilZero.string_of_uint (Nat.to_uint i).

Fixpoint assign_items (i : nat) (vs : list Value) (l : list (string * Slot)) : list (string * Slot) :=
  match vs with
  | [] => l
  | v :: r => assign_items (S i) r (set_own (index_key i) (Data v) l)
  end.

Fixpoint chars (s : string) : list Value :=
  match s with
  | EmptyString => []
  | String c r => VStr (String c EmptyString) :: chars r
  end.

(** [Object.assign(target, source)]: the own enumerable properties of the
    source are written on the target, in order.  A primitive other than a
    string has none; nor has an [Error].  Every name is written as an own
    property: the setter of [Object.prototype] that makes of a member named
    [__proto__] the new prototype is not part of the model. *)
Definition Object_assign (target : Obj) (source : Value) : Obj :=
  match source with
  | VObj fs =>
      mkObj (fold_left (fun l kv => set_own (fst kv) (Data (snd kv)) l) fs (own target))
            (protos target)
  | VArr vs => mkObj (assign_items 0 vs (own target)) (protos target)
  | VStr s => mkObj (assign_items 0 (chars s) (own target)) (protos target)
  | _ => target
  end.

(** [...v] in an argument list: arrays and strings are iterable. *)
Definition spread (v : Value) : Outcome (list Value) :=
  match v with
  | VArr vs => Normal vs
  | VStr s => Normal (chars s)
  | _ => Thrown (VError TypeError "Spread syntax requires ...iterable[Symbol.iterator] to be a function")
  end.

(** The data an object holds: what [JSON.stringify] sees of it. *)
Fixpoint data_fields (l : list (string * Slot)) : list (string * Value) :=
  match l with
  | [] => []
  | (k, Data v) :: r => (k, v) :: data_fields r
  | (_, Fn _) :: r => data_fields r
  end.

End JS.

(* ===================================================================== *)
(** ** The codec: [JSON.stringify] and [JSON.parse]                       *)
(* ===================================================================== *)

Module JSON.
Import JS.

(** *** Printing *)

Definition hex_digit (n : N) : ascii :=
  ascii_of_N (if (n <? 10)%N then 48 + n else 87 + n)%N.

(** The double quote. *)
Definition dquote : ascii := "034"%char.

(** [QuoteJSONString], one code unit at a time. *)
Definition escape_char (c : ascii) : string :=
  let n := N_of_ascii c in
  if (n =? 34)%N then String "\" (String dquote EmptyString)
  else if (n =? 92)%N then "\\"
  else if (n =? 8)%N then "\b"
  else if (n =? 9)%N then "\t"
  else if (n =? 10)%N then "\n"
  else if (n =? 12)%N then "\f"
  else if (n =? 13)%N then "\r"
  else if (n <? 32)%N then
    String "\" (String "u" (String "0" (String "0"
      (String (hex_digit (n / 16)) (String (hex_digit (n mod 16)) EmptyString)))))
  else String c EmptyString.

Fixpoint escape (s : string) : string :=
  match s with
  | EmptyString => EmptyString
  | String c r => escape_char c +:+ escape r
  end.

Definition quote (s : string) : string :=
  String dquote (escape s +:+ String dquote EmptyString).

Definition number_text (n : Z) : string := NilZero.string_of_int (Z.to_int n).

Fixpoint join (sep : string) (parts : list string) : string :=
  match parts with
  | [] => EmptyString
  | [p] => p
  | p :: rest => p +:+ sep +:+ join sep rest
  end.

(** [JSON.stringify(v)]; [None] is [undefined].  In an array an [undefined]
    element prints as [null]; in an object a member whose value is
    [undefined] is left out.  The own properties of an [Error] are not
    enumerable.  A number is printed digit for digit, which is how the safe
    integers print. *)
Fixpoint stringify (v : Value) : option string :=
  match v with
  | VUndefined => None
  | VNull => Some "null"
  | VBool b => Some (if b then "true" else "false")
  | VNum n => Some (number_text n)
  | VStr s => Some (quote s)
  | VArr items =>
      Some ("[" +:+
            join "," ((fix elements (l : list Value) : list string :=
                         match l with
                         | [] => []
                         | x :: r => default "null" (stringify x) :: elements r
                         end) items) +:+ "]")
  | VObj fields =>
      Some ("{" +:+
            join "," ((fix members (l : list (string * Value)) : list string :=
                         match l with
                         | [] => []
                         | (k, x) :: r =>
                             match stringify x with
                             | Some t => (quote k +:+ ":" +:+ t) :: members r
                             | None => members r
                             end
                         end) fields) +:+ "}")
  | VError _ _ => Some "{}"
  end.

Definition element_text (v : Value) : string := default "null" (stringify v).

Definition member_text (kv : string * Value) : option string :=
  match stringify (snd kv) with
  | Some t => Some (quote (fst kv) +:+ ":" +:+ t)
  | None => None
  end.

(** [JSON.stringify(o)] for an object with methods: its own data. *)
Definition stringify_object (o : Obj) : option string :=
  stringify (VObj (data_fields (own o))).

(** *** Parsing

    The grammar of ECMA-404, for the values above: a number with a fraction or
    an exponent, and a [\u] escape beyond one byte, have no counterpart among
    them and are not accepted.  An integer is read as itself, which is what
    the safe integers read as. *)

Definition is_ws (c : ascii) : bool :=
  let n := N_of_ascii c in
  ((n =? 32) || (n =? 9) || (n =? 10) || (n =? 13))%N.

Fixpoint skip_ws (s : string) : string :=
  match s with
  | String c r => if is_ws c then skip_ws r else s
  | EmptyString => s
  end.

Definition is_digit (c : ascii) : bool :=
  let n := N_of_ascii c in ((48 <=? n) && (n <=? 57))%N.

Definition hex_value (c : ascii) : option N :=
  let n := N_of_ascii c in
  if ((48 <=? n) && (n <=? 57))%N then Some (n - 48)%N
  else if ((97 <=? n) && (n <=? 102))%N then Some (n - 87)%N
  else if ((65 <=? n) && (n <=? 70))%N then Some (n - 55)%N
  else None.

Definition hex4 (a b c d : ascii) : option N :=
  match hex_value a, hex_value b, hex_value c, hex_value d with
  | Some x, Some y, Some z, Some w => Some (((x * 16 + y) * 16 + z) * 16 + w)%N
  | _, _, _, _ => None
  end.

(** The character a two-character escape stands for. *)
Definition unescape (e : ascii) : option ascii :=
  let n := N_of_ascii e in
  if (n =? 34)%N then Some dquote
  else if (n =? 92)%N then Some "\"%char
  else if (n =? 47)%N then Some "/"%char
  else if (n =? 98)%N then Some "008"%char
  else if (n =? 102)%N then Some "012"%char
  else if (n =? 110)%N then Some "010"%char
  else if (n =? 114)%N then Some "013"%char
  else if (n =? 116)%N then Some "009"%char
  else None.

(** A string literal, from after its opening quote to its closing one. *)
Fixpoint parse_chars (s : string) : option (string * string) :=
  match s with
  | EmptyString => None
  | String c r =>
      if Ascii.eqb c dquote then Some (EmptyString, r)
      else if Ascii.eqb c "\"%char then
        match r with
        | String e r1 =>
            match unescape e with
            | Some c' =>
                match parse_chars r1 with
                | Some (t, rest) => Some (String c' t, rest)
                | None => None
                end
            | None =>
                if Ascii.eqb e "u"%char then
                  match r1 with
                  | String h1 (String h2 (String h3 (String h4 r2))) =>
                      match hex4 h1 h2 h3 h4 with
                      | Some n =>
                          if (n <? 256)%N then
                            match parse_chars r2 with
                            | Some (t, rest) => Some (String (ascii_of_N n) t, rest)
                            | None => None
                            end
                          else None
                      | None => None
                      end
                  | _ => None
                  end
                else None
            end
        | EmptyString => None
        end
      else if (N_of_ascii c <? 32)%N then None
      else
        match parse_chars r with
        | Some (t, rest) => Some (String c t, rest)
        | None => None
        end
  end.

Fixpoint take_digits (s : string) : string * string :=
  match s with
  | String c r =>
      if is_digit c then (let (d, rest) := take_digits r in (String c d, rest))
      else (EmptyString, s)
  | EmptyString => (EmptyString, EmptyString)
  end.

Definition continues_number (s : string) : bool :=
  match s with
  | String c _ => Ascii.eqb c "."%char || Ascii.eqb c "e"%char || Ascii.eqb c "E"%char
  | EmptyString => false
  end.

(** An optional minus sign, then [0] or digits that do not start with [0]. *)
Definition parse_number (s : string) : option (Z * string) :=
  let (negative, s1) :=
    match s with
    | String c r => if Ascii.eqb c "-"%char then (true, r) else (false, s)
    | EmptyString => (false, s)
    end in
  let (ds, rest) := take_digits s1 in
  match NilZero.uint_of_string ds with
  | Some d =>
      if Decimal.uint_beq (Decimal.unorm d) d && negb (continues_number rest)
      then Some (Z.of_int (if negative then Decimal.Neg d else Decimal.Pos d), rest)
      else None
  | None => None
  end.

Fixpoint expect (word s : string) : option string :=
  match word, s with
  | EmptyString, _ => Some s
  | String c w, String c' r => if Ascii.eqb c c' then expect w r else None
  | String _ _, EmptyString => None
  end.

(** Recursive descent; every call spends one unit of [fuel]. *)
Fixpoint parse_value (fuel : nat) (s : string) {struct fuel} : option (Value * string) :=
  match fuel with
  | O => None
  | S f =>
      match skip_ws s with
      | EmptyString => None
      | String c r =>
          if Ascii.eqb c "n"%char then
            match expect "ull" r with Some rest => Some (VNull, rest) | None => None end
          else if Ascii.eqb c "t"%char then
            match expect "rue" r with Some rest => Some (VBool true, rest) | None => None end
          else if Ascii.eqb c "f"%char then
            match expect "alse" r with Some rest => Some (VBool false, rest) | None => None end
          else if Ascii.eqb c dquote then
            match parse_chars r with Some (t, rest) => Some (VStr t, rest) | None => None end
          else if Ascii.eqb c "["%char then
            match skip_ws r with
            | String c' r' =>
                if Ascii.eqb c' "]"%char then Some (VArr [], r')
                else match parse_elements f r with
                     | Some (vs, rest) => Some (VArr vs, rest)
                     | None => None
                     end
            | EmptyString => None
            end
          else if Ascii.eqb c "{"%char then
            match skip_ws r with
            | String c' r' =>
                if Ascii.eqb c' "}"%char then Some (VObj [], r')
                else match parse_members f r [] with
                     | Some (fs, rest) => Some (VObj fs, rest)
                     | None => None
                     end
            | EmptyString => None
            end
          else
            match parse_number (String c r) with
            | Some (n, rest) => Some (VNum n, rest)
            | None => None
            end
      end
  end
with parse_elements (fuel : nat) (s : string) {struct fuel} : option (list Value * string) :=
  match fuel with
  | O => None
  | S f =>
      match parse_value f s with
      | Some (v, r) =>
          match skip_ws r with
          | String c r' =>
              if Ascii.eqb c ","%char then
                match parse_elements f r' with
                | Some (vs, rest) => Some (v :: vs, rest)
                | None => None
                end
              else if Ascii.eqb c "]"%char then Some ([v], r')
              else None
          | EmptyString => None
          end
      | None => None
      end
  end
with parse_members (fuel : nat) (s : string) (acc : list (string * Value)) {struct fuel}
  : option (list (string * Value) * string) :=
  match fuel with
  | O => None
  | S f =>
      match skip_ws s with
      | String q r =>
          if Ascii.eqb q dquote then
            match parse_chars r with
            | Some (k, r1) =>
                match skip_ws r1 with
                | String c r2 =>
                    if Ascii.eqb c ":"%char then
                      match parse_value f r2 with
                      | Some (v, r3) =>
                          match skip_ws r3 with
                          | String c' r4 =>
                              if Ascii.eqb c' ","%char then parse_members f r4 (set_own k v acc)
                              else if Ascii.eqb c' "}"%char then Some (set_own k v acc, r4)
                              else None
                          | EmptyString => None
                          end
                      | None => None
                      end
                    else None
                | EmptyString => None
                end
            | None => None
            end
          else None
      | EmptyString => None
      end
  end.

Definition syntax_error : Value := VError SyntaxError "Unexpected token in JSON".

(** [JSON.parse(text)].  The fuel is not exhausted: of two calls in a row
    at least one reads a character. *)
Definition parse (text : string) : Outcome Value :=
  match parse_value (2 * String.length text + 2) text with
  | Some (v, rest) =>
      match skip_ws rest with
      | EmptyString => Normal v
      | String _ _ => Thrown syntax_error
      end
  | None => Thrown syntax_error
  end.

End JSON.

(* ===================================================================== *)
(** ** The records of [./classes]                                         *)
(* ===================================================================== *)

Module Classes.
Import JS.

(** Modelled from the spec: the declarations of [./classes] are not part of
    the sources at hand; the records below have the fields that the data
    model lists and that [entity.ts] reads and writes. *)

Module EntityId.
Record t := mk { name : string; key : string }.
End EntityId.

(** A request: the operation's name and its serialized input, either of
    which may be absent. *)
Module RequestMessage.
Record t := mk { name : option string; input : option string }.
End RequestMessage.

(** [new OperationResult(isError, duration, result?)]. *)
Module OperationResult.
Record t := mk { isError : bool; duration : Z; result : option string }.
End OperationResult.

(** [new Signal(target, name, input)].  The name is whatever value the
    caller computed. *)
Module Signal.
Record t := mk { target : EntityId.t; name : Value; input : option string }.
End Signal.

(** [new EntityState(results, signals)], with [entityExists] and
    [entityState] set afterwards.  [results] is a JavaScript array: an index
    may hold nothing. *)
Module EntityState.
Record t := mk {
  entityExists : bool;
  entityState : option string;
  results : list (option OperationResult.t);
  signals : list Signal.t
}.
End EntityState.

Module DurableEntityBindingInfo.
Record t := mk {
  self : EntityId.t;
  exists_ : bool;
  state : option string;
  batch : list RequestMessage.t
}.
End DurableEntityBindingInfo.

(** The object stored in [context.df].  Its seven methods are the methods of
    [Entity] bound to the batch state and to the two values kept here,
    [currentRequest] and [startTime]. *)
Module DurableEntityContext.
Record t := mk {
  entityName : string;
  entityKey : string;
  entityId : EntityId.t;
  operationName : option string;
  isNewlyConstructed : bool;
  currentRequest : RequestMessage.t;
  startTime : Z
}.
End DurableEntityContext.

(** *** JavaScript arrays *)

Section Arrays.
Context {A : Type}.

(** [a[i]], [undefined] when the index holds nothing. *)
Definition array_get (a : list (option A)) (i : nat) : option A :=
  mjoin (a !! i).

(** [a[i] = x]: past the end the array grows, leaving holes. *)
Definition array_set (a : list (option A)) (i : nat) (x : A) : list (option A) :=
  if (i <? length a)%nat then <[i := Some x]> a
  else a ++ replicate (i - length a) None ++ [Some x].

(** [a.push(x)]. *)
Definition array_push (a : list (option A)) (x : A) : list (option A) :=
  a ++ [Some x].
End Arrays.

End Classes.

(* ===================================================================== *)
(** ** The class [Entity]                                                 *)
(* ===================================================================== *)

Module Entity.
Import JS JSON Classes.

(** *** User code

    What calling a function member of an object gives: a value, an exception,
    or a promise.  The object is the receiver as the call leaves it; for a
    promise, as it is when the promise settles, together with how it
    settles. *)
Inductive MethodResult :=
| MReturns (this' : Obj) (result : Value)
| MThrows (e : Value)
| MPromise (this' : Obj) (settled : Outcome Value).

(** The two call shapes of [signalEntity(entityId, arg2, arg3)]: [arg2] a
    string, with [arg3] any value ([undefined] when left out); or [arg2] an
    object of the user's, here its address, with [arg3] a callback. *)
Inductive SignalArgs :=
| Explicit (operationName : string) (operationInput : Value)
| Typed (entityObject : nat) (action : Obj -> Outcome Value).

(** The argument of [setState] and [return]: a data value, or an object
    with methods. *)
Inductive Any :=
| Val (v : Value)
| Ref (o : Obj).

Definition stringify_any (a : Any) : option string :=
  match a with
  | Val v => stringify v
  | Ref o => stringify_object o
  end.

(** A call of a method of [context.df]. *)
Inductive ContextCall :=
| GetState (initializer : option (unit -> Outcome Value))
| SetState (state : Value)
| GetInput
| Return (result : Value)
| DestructOnExit
| SignalEntity (entityId : EntityId.t) (args : SignalArgs)
| Dispatch (entityFactory : unit -> Obj).

(** The user's operation logic, as the calls it makes on [context.df] and
    what it does with their results.  [Await k] gives control back with [k]
    left to run in a later job (the rest of an [async] function after an
    [await], or a [then] callback).  The promise that [dispatch] returns is
    not a data value: the script goes on with [undefined]. *)
Inductive Script :=
| Done
| Throw (e : Value)
| Await (k : Script)
| Call (c : ContextCall) (k : Outcome Value -> Script).

(** [fn], the argument of [new Entity(fn)].  An [async] function never
    throws to its caller: it returns a rejected promise. *)
Record UserFunction := mkFn {
  async : bool;
  body : DurableEntityContext.t -> Script
}.

(** *** The machine *)

(** What waits for a promise to settle: the rest of a user function, or the
    rest of [dispatch] after its [await]. *)
Inductive Job :=
| Continuation (k : Script)
| DispatchResume (entity : Obj) (startTime : Z) (settled : Outcome Value).

Record Machine := mkMachine {
  batchState : EntityState.t;               (* the object [returnState] *)
  df : option DurableEntityContext.t;       (* [context.df] *)
  heap : gmap nat Obj;                      (* the user's objects, by address *)
  reads : nat;                              (* clock readings taken so far *)
  jobs : list Job                           (* waiting continuations *)
}.

Definition with_batch (b : EntityState.t) (m : Machine) : Machine :=
  mkMachine b (df m) (heap m) (reads m) (jobs m).
Definition with_df (d : DurableEntityContext.t) (m : Machine) : Machine :=
  mkMachine (batchState m) (Some d) (heap m) (reads m) (jobs m).
Definition with_heap (h : gmap nat Obj) (m : Machine) : Machine :=
  mkMachine (batchState m) (df m) h (reads m) (jobs m).
Definition tick (m : Machine) : Machine :=
  mkMachine (batchState m) (df m) (heap m) (S (reads m)) (jobs m).
Definition enqueue (j : Job) (m : Machine) : Machine :=
  mkMachine (batchState m) (df m) (heap m) (reads m) (jobs m ++ [j]).

Definition with_results (r : list (option OperationResult.t)) (b : EntityState.t) : EntityState.t :=
  EntityState.mk (EntityState.entityExists b) (EntityState.entityState b) r (EntityState.signals b).

(** How a promise stands when the call that made it returns. *)
Inductive PromiseState :=
| Fulfilled
| Rejected (e : Value)
| Pending.

Section Program.

(** [clock k] is what the [k]-th [new Date()] reads, in milliseconds. *)
Variable clock : nat -> Z.

(** The bodies of the functions that objects hold. *)
Variable functions : FunRef -> Obj -> list Value -> MethodResult.

(** [new Date()]. *)
Definition new_Date (m : Machine) : Z * Machine := (clock (reads m), tick m).

(** [f.apply(this, args)].  The closure made by [createEntityProxy] records
    its call. *)
Definition call (f : FunRef) (this : Obj) (args : list Value) : MethodResult :=
  match f with
  | Stub p => MReturns this (VObj [("operationName", VStr p); ("operationContent", VArr args)])
  | _ => functions f this args
  end.

(** [o.p(...args)] in a callback, for its value. *)
Definition invoke (o : Obj) (p : string) (args : list Value) : Outcome Value :=
  match get o p with
  | Some (Fn f) =>
      match call f o args with
      | MReturns _ result => Normal result
      | MThrows e => Thrown e
      | MPromise _ _ => Normal VUndefined
      end
  | _ => Thrown (VError TypeError "not a function")
  end.

(** *** The methods *)

Definition destructOnExit (batchState : EntityState.t) : EntityState.t :=
  EntityState.mk false None (EntityState.results batchState) (EntityState.signals batchState).

Definition getInput (currentRequest : RequestMessage.t) : Outcome Value :=
  match RequestMessage.input currentRequest with
  | Some text => if truthy_text (Some text) then parse text else Normal VUndefined
  | None => Normal VUndefined
  end.

Definition getState (returnState : EntityState.t)
    (initializer : option (unit -> Outcome Value)) : Outcome Value :=
  match EntityState.entityState returnState with
  | Some text =>
      if truthy_text (Some text) then parse text
      else match initializer with
           | Some f => f tt
           | None => Normal VUndefined
           end
  | None =>
      match initializer with
      | Some f => f tt
      | None => Normal VUndefined
      end
  end.

Definition computeElapsedMilliseconds (startTime : Z) (m : Machine) : Z * Machine :=
  let (endTime, m') := new_Date m in (endTime - startTime, m').

Definition return_ (startTime : Z) (result : Any) (m : Machine) : Machine :=
  let b := batchState m in
  let b1 := EntityState.mk true (EntityState.entityState b)
                           (EntityState.results b) (EntityState.signals b) in
  let (elapsed, m1) := computeElapsedMilliseconds startTime (with_batch b1 m) in
  with_batch
    (with_results
       (array_push (EntityState.results b1)
                   (OperationResult.mk false elapsed (stringify_any result))) b1) m1.

Definition setState (returnState : EntityState.t) (state : Any) : EntityState.t :=
  EntityState.mk true (stringify_any state)
                 (EntityState.results returnState) (EntityState.signals returnState).

(** Every name on the object and up its prototype chain. *)
Definition property_names (o : Obj) : list string :=
  flat_map (fun t => map fst t) (own o :: protos o) ++ Object_prototype_names.

Definition stub_if_function (o : Obj) (p : string) : Obj :=
  if is_function (get o p) then set o p (Fn (Stub p)) else o.

(** [createEntityProxy(entityObject)]: the object itself, its functions
    overwritten. *)
Definition createEntityProxy (entityObject : nat) (h : gmap nat Obj)
  : option (nat * gmap nat Obj) :=
  match h !! entityObject with
  | Some o =>
      Some (entityObject,
            <[entityObject := fold_left stub_if_function (property_names o) o]> h)
  | None => None
  end.

Definition push_signal (s : Signal.t) (b : EntityState.t) : EntityState.t :=
  EntityState.mk (EntityState.entityExists b) (EntityState.entityState b)
                 (EntityState.results b) (EntityState.signals b ++ [s]).

(** The last statement of [signalEntity]. *)
Definition send (entityId : EntityId.t) (operationName operationInput : Value)
    (m : Machine) : Machine :=
  with_batch
    (push_signal
       (Signal.mk entityId operationName
          (if truthy operationInput then stringify operationInput else Some EmptyString))
       (batchState m)) m.

Definition signalEntity (entityId : EntityId.t) (args : SignalArgs) (m : Machine)
  : Outcome Value * Machine :=
  match args with
  | Explicit arg2 arg3 =>
      let operationName := VStr arg2 in
      let operationInput :=
        match (if truthy arg3 then stringify arg3 else Some EmptyString) with
        | Some text => VStr text
        | None => VUndefined
        end in
      (Normal VUndefined, send entityId operationName operationInput m)
  | Typed entityObject action =>
      match createEntityProxy entityObject (heap m) with
      | None => (Thrown (VError TypeError "Cannot convert undefined or null to object"), m)
      | Some (proxy, h) =>
          let m1 := with_heap h m in
          match h !! proxy with
          | None => (Thrown (VError TypeError "Cannot convert undefined or null to object"), m1)
          | Some o =>
              match action o with
              | Thrown e => (Thrown e, m1)
              | Normal signalParameters =>
                  match get_member signalParameters "operationName" with
                  | Thrown e => (Thrown e, m1)
                  | Normal operationName =>
                      match get_member signalParameters "operationContent" with
                      | Thrown e => (Thrown e, m1)
                      | Normal operationInput =>
                          (Normal VUndefined, send entityId operationName operationInput m1)
                      end
                  end
              end
          end
      end
  end.

Definition no_method (operationName : string) : Value :=
  error ("Method " +:+ String dquote (operationName +:+ String dquote " does not exist in entity")).

(** [dispatch], up to its [await] when it reaches it.  An exception in an
    [async] function rejects the promise it returns. *)
Definition dispatch (currentRequest : RequestMessage.t) (startTime : Z)
    (entityFactory : unit -> Obj) (m : Machine) : PromiseState * Machine :=
  match RequestMessage.name currentRequest with
  | None => (Rejected (error "Undefined operation"), m)
  | Some operationName =>
      if negb (truthy (VStr operationName)) then (Rejected (error "Undefined operation"), m)
      else
        match getState (batchState m) (Some (fun _ => Normal (VObj []))) with
        | Thrown e => (Rejected e, m)
        | Normal state =>
            let entity := Object_assign (entityFactory tt) state in
            match get entity operationName with
            | Some (Fn f) =>
                match getInput currentRequest with
                | Thrown e => (Rejected e, m)
                | Normal input =>
                    match spread input with
                    | Thrown e => (Rejected e, m)
                    | Normal args =>
                        match call f entity args with
                        | MThrows e => (Rejected e, m)
                        | MPromise entity' settled =>
                            (Pending, enqueue (DispatchResume entity' startTime settled) m)
                        | MReturns entity' result =>
                            (Fulfilled,
                             return_ startTime (Val result)
                               (with_batch (setState (batchState m) (Ref entity')) m))
                        end
                    end
                end
            | _ => (Rejected (no_method operationName), m)
            end
        end
  end.

(** [dispatch] from its [await] on. *)
Definition dispatch_resume (entity : Obj) (startTime : Z) (settled : Outcome Value)
    (m : Machine) : PromiseState * Machine :=
  match settled with
  | Thrown e => (Rejected e, m)
  | Normal result =>
      (Fulfilled,
       return_ startTime (Val result) (with_batch (setState (batchState m) (Ref entity)) m))
  end.

Definition no_df : Value := VError TypeError "Cannot read properties of undefined".

(** A call [context.df.method(...)]: the method is looked up on the object
    that [context.df] holds when the call is made. *)
Definition perform (c : ContextCall) (m : Machine) : Outcome Value * Machine :=
  match df m with
  | None => (Thrown no_df, m)
  | Some d =>
      match c with
      | GetState initializer => (getState (batchState m) initializer, m)
      | SetState state => (Normal VUndefined, with_batch (setState (batchState m) (Val state)) m)
      | GetInput => (getInput (DurableEntityContext.currentRequest d), m)
      | Return result => (Normal VUndefined, return_ (DurableEntityContext.startTime d) (Val result) m)
      | DestructOnExit => (Normal VUndefined, with_batch (destructOnExit (batchState m)) m)
      | SignalEntity entityId args => signalEntity entityId args m
      | Dispatch entityFactory =>
          (Normal VUndefined,
           snd (dispatch (DurableEntityContext.currentRequest d)
                         (DurableEntityContext.startTime d) entityFactory m))
      end
  end.

(** How a run of user code ends for its caller. *)
Inductive Completion :=
| Completed
| Raised (e : Value).

(** Run a script until it ends or gives control back. *)
Fixpoint exec (s : Script) (m : Machine) : Completion * Machine :=
  match s with
  | Done => (Completed, m)
  | Throw e => (Raised e, m)
  | Await k => (Completed, enqueue (Continuation k) m)
  | Call c k => let (o, m') := perform c m in exec (k o) m'
  end.

(** [this.fn(context)]. *)
Definition call_fn (fn : UserFunction) (d : DurableEntityContext.t) (m : Machine)
  : Completion * Machine :=
  let (c, m') := exec (body fn d) m in
  (if async fn then Completed else c, m').

Definition getCurrentDurableEntityContext (bindingInfo : DurableEntityBindingInfo.t)
    (batchState : EntityState.t) (requestIndex : nat) (startTime : Z)
  : Outcome DurableEntityContext.t :=
  match DurableEntityBindingInfo.batch bindingInfo !! requestIndex with
  | None => Thrown no_df
  | Some currentRequest =>
      let self := DurableEntityBindingInfo.self bindingInfo in
      Normal (DurableEntityContext.mk
                (EntityId.name self) (EntityId.key self) self
                (RequestMessage.name currentRequest)
                (negb (EntityState.entityExists batchState))
                currentRequest startTime)
  end.

Definition set_result (i : nat) (r : OperationResult.t) (m : Machine) : Machine :=
  with_batch (with_results (array_set (EntityState.results (batchState m)) i r) (batchState m)) m.

(** The [try] statement in the loop of [handle]. *)
Definition try_fn (fn : UserFunction) (d : DurableEntityContext.t) (i : nat) (startTime : Z)
    (m : Machine) : Machine :=
  match call_fn fn d m with
  | (Completed, m1) =>
      match array_get (EntityState.results (batchState m1)) i with
      | Some _ => m1
      | None =>
          let (elapsedMs, m2) := computeElapsedMilliseconds startTime m1 in
          set_result i (OperationResult.mk false elapsedMs None) m2
      end
  | (Raised error, m1) =>
      let (elapsedMs, m2) := computeElapsedMilliseconds startTime m1 in
      set_result i (OperationResult.mk true elapsedMs (stringify error)) m2
  end.

(** One turn of the loop, for the request at index [i]. *)
Definition iteration (fn : UserFunction) (entityBinding : DurableEntityBindingInfo.t)
    (i : nat) (m : Machine) : Outcome Machine :=
  let (startTime, m1) := new_Date m in
  match getCurrentDurableEntityContext entityBinding (batchState m1) i startTime with
  | Thrown e => Thrown e
  | Normal d => Normal (try_fn fn d i startTime (with_df d m1))
  end.

Fixpoint loop (fn : UserFunction) (entityBinding : DurableEntityBindingInfo.t)
    (indices : list nat) (m : Machine) : Outcome Machine :=
  match indices with
  | [] => Normal m
  | i :: rest =>
      match iteration fn entityBinding i m with
      | Normal m' => loop fn entityBinding rest m'
      | Thrown e => Thrown e
      end
  end.

(** How [handle] ends: its promise rejects, or it reaches
    [context.done(null, returnState)] with the machine as it then is. *)
Inductive Handled :=
| Fatal (e : Value)
| DoneWith (returnState : EntityState.t) (m : Machine).

(** [handle(context)].  [entityBinding] is what
    [Utils.getInstancesOf(context.bindings, ...)[0]] found; the machine
    comes with the user's objects, the clock and no batch state yet. *)
Definition handle (fn : UserFunction) (entityBinding : option DurableEntityBindingInfo.t)
    (m : Machine) : Handled :=
  match entityBinding with
  | None => Fatal (error "Could not find an entityTrigger binding on context.")
  | Some entityBinding =>
      let returnState :=
        EntityState.mk (DurableEntityBindingInfo.exists_ entityBinding)
                       (DurableEntityBindingInfo.state entityBinding) [] [] in
      match loop fn entityBinding
                 (seq 0 (length (DurableEntityBindingInfo.batch entityBinding)))
                 (with_batch returnState m) with
      | Normal m' => DoneWith (batchState m') m'
      | Thrown e => Fatal e
      end
  end.

(** [listen()] is [handle], bound to the entity. *)
Definition listen := handle.

(** *** After [handle] has returned: the waiting jobs *)

Definition run_job (j : Job) (m : Machine) : Machine :=
  match j with
  | Continuation k => snd (exec k m)
  | DispatchResume entity startTime settled => snd (dispatch_resume entity startTime settled m)
  end.

Fixpoint run_jobs (fuel : nat) (m : Machine) : Machine :=
  match fuel with
  | O => m
  | S f =>
      match jobs m with
      | [] => m
      | j :: rest =>
          run_jobs f (run_job j (mkMachine (batchState m) (df m) (heap m) (reads m) rest))
      end
  end.

End Program.

Definition initial (h : gmap nat Obj) : Machine :=
  mkMachine (EntityState.mk false None [] []) None h 0 [].

End Entity.

(* ===================================================================== *)
(** ** Runs as sequences of steps                                         *)
(* ===================================================================== *)

Module Trace.
Import JS JSON Classes Entity.

(** The elementary changes that the methods and the loop make to the
    machine. *)
Inductive Step :=
| SDestruct                                            (* [destructOnExit] *)
| SSetState (state : Any)                              (* [setState] *)
| SReturn (startTime : Z) (result : Any)               (* [return] *)
| SSend (entityId : EntityId.t) (name input : Value)   (* the push of [signalEntity] *)
| SHeap (h : gmap nat Obj)                             (* the writes of [createEntityProxy] *)
| SDefer (j : Job)                                     (* an [await] *)
| STick                                                (* [new Date()] *)
| SContext (d : DurableEntityContext.t)                (* [context.df = ...] *)
| SResult (i : nat) (r : OperationResult.t).           (* [results[i] = ...] *)

Section Steps.
Variable clock : nat -> Z.
Variable functions : FunRef -> Obj -> list Value -> MethodResult.

Definition step (s : Step) (m : Machine) : Machine :=
  match s with
  | SDestruct => with_batch (destructOnExit (batchState m)) m
  | SSetState state => with_batch (setState (batchState m) state) m
  | SReturn startTime result => return_ clock startTime result m
  | SSend entityId name input => send entityId name input m
  | SHeap h => with_heap h m
  | SDefer j => enqueue j m
  | STick => tick m
  | SContext d => with_df d m
  | SResult i r => set_result i r m
  end.

Definition run (steps : list Step) (m : Machine) : Machine :=
  fold_left (fun m s => step s m) steps m.

(** The steps of [dispatch], up to its [await]. *)
Definition dispatch_steps (currentRequest : RequestMessage.t) (startTime : Z)
    (entityFactory : unit -> Obj) (m : Machine) : list Step :=
  match RequestMessage.name currentRequest with
  | None => []
  | Some operationName =>
      if negb (truthy (VStr operationName)) then []
      else
        match getState (batchState m) (Some (fun _ => Normal (VObj []))) with
        | Thrown _ => []
        | Normal state =>
            let entity := Object_assign (entityFactory tt) state in
            match get entity operationName with
            | Some (Fn f) =>
                match getInput currentRequest with
                | Thrown _ => []
                | Normal input =>
                    match spread input with
                    | Thrown _ => []
                    | Normal args =>
                        match call functions f entity args with
                        | MThrows _ => []
                        | MPromise entity' settled =>
                            [SDefer (DispatchResume entity' startTime settled)]
                        | MReturns entity' result =>
                            [SSetState (Ref entity'); SReturn startTime (Val result)]
                        end
                    end
                end
            | _ => []
            end
        end
  end.

(** The steps of one call on [context.df]. *)
Definition call_steps (c : ContextCall) (m : Machine) : list Step :=
  match df m with
  | None => []
  | Some d =>
      match c with
      | GetState _ | GetInput => []
      | SetState state => [SSetState (Val state)]
      | Return result => [SReturn (DurableEntityContext.startTime d) (Val result)]
      | DestructOnExit => [SDestruct]
      | SignalEntity entityId (Explicit arg2 arg3) =>
          [SSend entityId (VStr arg2)
                 (match (if truthy arg3 then stringify arg3 else Some EmptyString) with
                  | Some text => VStr text
                  | None => VUndefined
                  end)]
      | SignalEntity entityId (Typed entityObject action) =>
          match createEntityProxy entityObject (heap m) with
          | None => []
          | Some (proxy, h) =>
              SHeap h ::
              match h !! proxy with
              | None => []
              | Some o =>
                  match action o with
                  | Normal signalParameters =>
                      match get_member signalParameters "operationName",
                            get_member signalParameters "operationContent" with
                      | Normal operationName, Normal operationInput =>
                          [SSend entityId operationName operationInput]
                      | _, _ => []
                      end
                  | Thrown _ => []
                  end
              end
          end
      | Dispatch entityFactory =>
          dispatch_steps (DurableEntityContext.currentRequest d)
                         (DurableEntityContext.startTime d) entityFactory m
      end
  end.

(** The steps of a script, up to where it ends or gives control back. *)
Fixpoint exec_steps (s : Script) (m : Machine) : list Step :=
  match s with
  | Done | Throw _ => []
  | Await k => [SDefer (Continuation k)]
  | Call c k =>
      let (o, m') := perform clock functions c m in
      call_steps c m ++ exec_steps (k o) m'
  end.

(** The steps of one turn of the loop. *)
Definition iteration_steps (fn : UserFunction) (entityBinding : DurableEntityBindingInfo.t)
    (i : nat) (m : Machine) : list Step :=
  let (startTime, m1) := new_Date clock m in
  match getCurrentDurableEntityContext entityBinding (batchState m1) i startTime with
  | Thrown _ => []
  | Normal d =>
      let m2 := with_df d m1 in
      let (c, m3) := call_fn clock functions fn d m2 in
      [STick; SContext d] ++ exec_steps (body fn d) m2 ++
      match c with
      | Completed =>
          match array_get (EntityState.results (batchState m3)) i with
          | Some _ => []
          | None =>
              [STick; SResult i (OperationResult.mk false (clock (reads m3) - startTime) None)]
          end
      | Raised error =>
          [STick; SResult i (OperationResult.mk true (clock (reads m3) - startTime)
                                                (stringify error))]
      end
  end.

Fixpoint loop_steps (fn : UserFunction) (entityBinding : DurableEntityBindingInfo.t)
    (indices : list nat) (m : Machine) : list Step :=
  match indices with
  | [] => []
  | i :: rest =>
      match iteration clock functions fn entityBinding i m with
      | Normal m' =>
          iteration_steps fn entityBinding i m ++ loop_steps fn entityBinding rest m'
      | Thrown _ => []
      end
  end.

(** The calls of a list, one after the other. *)
Definition perform_all (cs : list ContextCall) (m : Machine) : Machine :=
  fold_left (fun m c => snd (perform clock functions c m)) cs m.

(** The steps of a waiting job when it runs. *)
Definition job_steps (j : Job) (m : Machine) : list Step :=
  match j with
  | Continuation k => exec_steps k m
  | DispatchResume entity startTime (Normal result) =>
      [SSetState (Ref entity); SReturn startTime (Val result)]
  | DispatchResume _ _ (Thrown _) => []
  end.

End Steps.

(** In the claim's words: the flag becomes [false] by a destroy, [true] by a
    write of the state or a recorded return value, and nothing else changes
    it. *)
Definition exists_after (steps : list Step) (before : bool) : bool :=
  fold_left (fun e s =>
               match s with
               | SDestruct => false
               | SSetState _ | SReturn _ _ => true
               | _ => e
               end) steps before.

Definition exists_of (m : Machine) : bool := EntityState.entityExists (batchState m).
Definition state_of (m : Machine) : option string := EntityState.entityState (batchState m).

(** A call that does not write the state: neither [setState] nor
    [destructOnExit], nor [dispatch], which ends with a [setState]. *)
Definition quiet (c : ContextCall) : bool :=
  match c with
  | SetState _ | DestructOnExit | Dispatch _ => false
  | _ => true
  end.

(** A step that writes the state. *)
Definition writes_state (s : Step) : bool :=
  match s with
  | SDestruct | SSetState _ => true
  | _ => false
  end.

End Trace.

(* ===================================================================== *)
(** ** Predicates used by the properties                                  *)
(* ===================================================================== *)

Module Pred.
Import JS JSON Classes Entity.

(** No key occurs twice. *)
Fixpoint distinct (ks : list string) : bool :=
  match ks with
  | [] => true
  | k :: r => negb (existsb (String.eqb k) r) && distinct r
  end.

(** A key that is not an array index. *)
Definition plain_key (k : string) : bool :=
  match array_index k with
  | Some _ => false
  | None => true
  end.

(** The values that the interchange format represents: no [undefined], no
    [Error] object; the keys of an object distinct and none of them an array
    index. *)
Fixpoint representable (v : Value) : bool :=
  match v with
  | VUndefined | VError _ _ => false
  | VNull | VBool _ | VNum _ | VStr _ => true
  | VArr items => forallb representable items
  | VObj fields =>
      distinct (map fst fields) && forallb plain_key (map fst fields)
      && forallb (fun kv => representable (snd kv)) fields
  end.

(** [p] is one of the names. *)
Definition mem (p : string) (names : list string) : bool := existsb (String.eqb p) names.

Definition results_of (m : Machine) : list (option OperationResult.t) :=
  EntityState.results (batchState m).

(** [m'] has the results of [m] and at most [n] more. *)
Definition grows_by (n : nat) (m m' : Machine) : Prop :=
  exists added : list OperationResult.t,
    results_of m' = (results_of m ++ map Some added)%list /\ (length added <= n)%nat.

End Pred.

(* ===================================================================== *)
(** ** Definitions for the round trip of the codec                        *)
(* ===================================================================== *)

Module Reading.
Import JS JSON.

(** Where a number may end: what follows is not a digit, a point or an exponent. *)
Definition boundary (rest : string) : bool :=
  match rest with
  | EmptyString => true
  | String c _ => negb (is_digit c) && negb (continues_number rest)
  end.

(** Fuel that suffices to read a value back: one unit per call. *)
Fixpoint need (v : Value) : nat :=
  match v with
  | VArr items =>
      S ((fix go (l : list Value) : nat :=
            match l with
            | [] => O
            | x :: r => S (need x + go r)
            end) items)
  | VObj fields =>
      S ((fix go (l : list (string * Value)) : nat :=
            match l with
            | [] => O
            | (_, x) :: r => S (need x + go r)
            end) fields)
  | _ => 1%nat
  end.

Definition need_items (l : list Value) : nat :=
  fold_right (fun x n => S (need x + n)) O l.

Definition need_fields (l : list (string * Value)) : nat :=
  fold_right (fun kv n => S (need (snd kv) + n)) O l.

(** Induction on values, their items and their fields together. *)
Fixpoint Value_rect' (P : Value -> Type) (Q : list Value -> Type)
    (R : list (string * Value) -> Type)
    (Hu : P VUndefined) (Hn : P VNull) (Hb : forall b, P (VBool b))
    (Hz : forall n, P (VNum n)) (Hs : forall s, P (VStr s))
    (Ha : forall items, Q items -> P (VArr items))
    (Ho : forall fields, R fields -> P (VObj fields))
    (He : forall k m, P (VError k m))
    (Q0 : Q []) (Q1 : forall x r, P x -> Q r -> Q (x :: r))
    (R0 : R []) (R1 : forall k x r, P x -> R r -> R ((k, x) :: r))
    (v : Value) : P v :=
  let rec := Value_rect' P Q R Hu Hn Hb Hz Hs Ha Ho He Q0 Q1 R0 R1 in
  match v with
  | VUndefined => Hu
  | VNull => Hn
  | VBool b => Hb b
  | VNum n => Hz n
  | VStr s => Hs s
  | VArr items =>
      Ha items ((fix go (l : list Value) : Q l :=
                   match l with
                   | [] => Q0
                   | x :: r => Q1 x r (rec x) (go r)
                   end) items)
  | VObj fields =>
      Ho fields ((fix go (l : list (string * Value)) : R l :=
                    match l with
                    | [] => R0
                    | (k, x) :: r => R1 k x r (rec x) (go r)
                    end) fields)
  | VError k m => He k m
  end.

(** How the text of a value starts: not with white space, a closing bracket
    or a comma. *)
Definition head_ok (s : string) : bool :=
  match s with
  | String c _ =>
      negb (is_ws c) && negb (Ascii.eqb c "]"%char) && negb (Ascii.eqb c "}"%char)
      && negb (Ascii.eqb c ","%char)
  | EmptyString => false
  end.

(** The text of a value that has one. *)
Definition text_of (v : Value) : string := default EmptyString (stringify v).

(** What the round trip needs of one value. *)
Definition reads_back (v : Value) : Prop :=
  stringify v = Some (text_of v) /\
  head_ok (text_of v) = true /\
  (need v <= String.length (text_of v))%nat /\
  forall fuel rest, (need v <= fuel)%nat -> boundary rest = true ->
    parse_value fuel (text_of v +:+ rest) = Some (v, rest).

(** None of the keys of [fields] is in [acc]. *)
Definition fresh_for (acc fields : list (string * Value)) : Prop :=
  Forall (fun kv => get_own (fst kv) acc = None) fields.

(** The text of one member of an object. *)
Definition member_string (kv : string * Value) : string :=
  quote (fst kv) +:+ ":" +:+ text_of (snd kv).

End Reading.

(* ===================================================================== *)
(** ** A counter entity                                                   *)
(* ===================================================================== *)

Module Counter.
Import JS JSON Classes Entity.

(** The clock advances ten milliseconds between two readings. *)
Definition clock (k : nat) : Z := 1000 + 10 * Z.of_nat k.

(** [add(n) { this.counter += n; return this.counter; }] *)
Definition add (this : Obj) (args : list Value) : MethodResult :=
  match get this "counter", args with
  | Some (Data (VNum c)), VNum n :: _ =>
      MReturns (set this "counter" (Data (VNum (c + n)))) (VNum (c + n))
  | _, _ => MThrows (VError TypeError "not a number")
  end.

(** [reset() { this.counter = 0; }] *)
Definition reset (this : Obj) (args : list Value) : MethodResult :=
  MReturns (set this "counter" (Data (VNum 0))) VUndefined.

(** [async addLater(n) { await tick(); return this.add(n); }] *)
Definition addLater (this : Obj) (args : list Value) : MethodResult :=
  match add this args with
  | MReturns this' result => MPromise this' (Normal result)
  | MThrows e => MPromise this (Thrown e)
  | r => r
  end.

Definition functions (f : FunRef) (this : Obj) (args : list Value) : MethodResult :=
  match f with
  | UserFn 1 => add this args
  | UserFn 2 => reset this args
  | UserFn 3 => addLater this args
  | _ => MReturns this VUndefined
  end.

(** [class Counter { counter = 0; add(n) ...; reset() ...; addLater(n) ... }] *)
Definition prototype : list (string * Slot) :=
  [("constructor", Fn (UserFn 0)); ("add", Fn (UserFn 1));
   ("reset", Fn (UserFn 2)); ("addLater", Fn (UserFn 3))].

Definition new_Counter (_ : unit) : Obj :=
  mkObj [("counter", Data (VNum 0))] [prototype].

(** [context => context.df.dispatch(() => new Counter())] *)
Definition by_dispatch : UserFunction :=
  mkFn false (fun _ => Call (Dispatch new_Counter) (fun _ => Done)).

(** [context => { context.df.return(1); context.df.return(2); }] *)
Definition returns_twice : UserFunction :=
  mkFn false (fun _ => Call (Return (VNum 1)) (fun _ => Call (Return (VNum 2)) (fun _ => Done))).

(** [context => { const x = context.df.getInput(); context.df.return(x); context.df.return(x); }] *)
Definition returns_input_twice : UserFunction :=
  mkFn false (fun _ =>
    Call GetInput (fun o =>
      match o with
      | Normal x => Call (Return x) (fun _ => Call (Return x) (fun _ => Done))
      | Thrown e => Throw e
      end)).

(** [context => { context.df.dispatch(() => new Counter()); context.df.return(1); }] *)
Definition dispatch_then_return : UserFunction :=
  mkFn false (fun _ =>
    Call (Dispatch new_Counter) (fun _ => Call (Return (VNum 1)) (fun _ => Done))).

(** [async context => { await tick(); context.df.setState(1); context.df.return(context.df.getInput()); }] *)
Definition awaits_first : UserFunction :=
  mkFn true (fun _ =>
    Await (Call (SetState (VNum 1)) (fun _ =>
           Call GetInput (fun o =>
             match o with
             | Normal v => Call (Return v) (fun _ => Done)
             | Thrown e => Throw e
             end)))).

(** [proxy => proxy.add(n)] *)
Definition call_add (n : Z) (proxy : Obj) : Outcome Value :=
  invoke functions proxy "add" [VNum n].

Definition self : EntityId.t := EntityId.mk "Counter" "one".
Definition other : EntityId.t := EntityId.mk "Counter" "two".

Definition request (name input : string) : RequestMessage.t :=
  RequestMessage.mk (Some name) (Some input).

Definition binding (batch : list RequestMessage.t) : option DurableEntityBindingInfo.t :=
  Some (DurableEntityBindingInfo.mk self false None batch).

(** What the host is handed, if anything. *)
Definition handed (h : Handled) : option EntityState.t :=
  match h with
  | DoneWith returnState _ => Some returnState
  | Fatal _ => None
  end.

Definition machine_of (h : Handled) : Machine :=
  match h with
  | DoneWith _ m => m
  | Fatal _ => initial ∅
  end.

(** A machine in the middle of a request. *)
Definition busy (r : RequestMessage.t) : Machine :=
  mkMachine (EntityState.mk false None [] [])
            (Some (DurableEntityContext.mk "Counter" "one" self
                     (RequestMessage.name r) true r 1000))
            ∅ 1 [].

End Counter.

(* ===================================================================== *)
(** ** Definitions for the further properties                             *)
(* ===================================================================== *)

Module More.
Import JS JSON Classes Entity Trace Pred.

Definition signals_of (m : Machine) : list Signal.t :=
  EntityState.signals (batchState m).

(** The signal that [signalEntity] builds in its last statement. *)
Definition signal_of (entityId : EntityId.t) (name input : Value) : Signal.t :=
  Signal.mk entityId name (if truthy input then stringify input else Some EmptyString).

(** The signals that the steps push, in order. *)
Fixpoint sent (steps : list Step) : list Signal.t :=
  match steps with
  | [] => []
  | SSend entityId name input :: r => signal_of entityId name input :: sent r
  | _ :: r => sent r
  end.

(** The payloads of the return values that the steps record, in order. *)
Fixpoint returned (steps : list Step) : list (option string) :=
  match steps with
  | [] => []
  | SReturn _ result :: r => stringify_any result :: returned r
  | _ :: r => returned r
  end.

(** A step of the loop's own bookkeeping of results. *)
Definition sets_result (s : Step) : bool :=
  match s with
  | SResult _ _ => true
  | _ => false
  end.

(** Every index of the array holds something. *)
Definition no_holes {A : Type} (a : list (option A)) : Prop :=
  Forall (fun x => is_Some x) a.

(** The object that [createEntityProxy] leaves in place of [o]. *)
Definition proxied (o : Obj) : Obj :=
  fold_left stub_if_function (property_names o) o.

(** The own properties after the fields of a state have been laid over
    them, as [Object.assign] does. *)
Definition assign_fields (fs : list (string * Value)) (l : list (string * Slot))
  : list (string * Slot) :=
  fold_left (fun l kv => set_own (fst kv) (Data (snd kv)) l) fs l.

(** Time does not go backwards. *)
Definition monotone (clock : nat -> Z) : Prop :=
  forall a b : nat, (a <= b)%nat -> clock a <= clock b.

(** No recorded duration is negative. *)
Definition durations_ok (a : list (option OperationResult.t)) : Prop :=
  Forall (fun x => match x with
                   | Some r => 0 <= OperationResult.duration r
                   | None => True
                   end) a.

(** A decoded input that cannot be spread. *)
Definition not_iterable (v : Value) : bool :=
  match v with
  | VArr _ | VStr _ => false
  | _ => true
  end.

(** [Number.MAX_SAFE_INTEGER]: up to it every integer is a number of its
    own, printed digit for digit and read back as itself. *)
Definition MAX_SAFE_INTEGER : Z := 2 ^ 53 - 1.

(** Every number in the value is a safe integer. *)
Fixpoint safe_integers (v : Value) : bool :=
  match v with
  | VNum n => Z.abs n <=? MAX_SAFE_INTEGER
  | VArr items => forallb safe_integers items
  | VObj fields => forallb (fun kv => safe_integers (snd kv)) fields
  | _ => true
  end.

(** How many return values the user code records in each turn of the loop
    of [handle], turn after turn, before it ends or gives control back. *)
Fixpoint recorded (clock : nat -> Z)
    (functions : FunRef -> Obj -> list Value -> MethodResult)
    (fn : UserFunction) (entityBinding : DurableEntityBindingInfo.t)
    (indices : list nat) (m : Machine) : list nat :=
  match indices with
  | [] => []
  | i :: rest =>
      let (startTime, m1) := new_Date clock m in
      match getCurrentDurableEntityContext entityBinding (batchState m1) i startTime with
      | Thrown _ => []
      | Normal d =>
          length (returned (exec_steps clock functions (body fn d) (with_df d m1)))
          :: recorded clock functions fn entityBinding rest
               (try_fn clock functions fn d i startTime (with_df d m1))
      end
  end.

End More.

(* ===================================================================== *)
(** ** The codec reads back what it writes                                *)
(* ===================================================================== *)

Module CodecFacts.
Import JS JSON Pred Reading.

Local Arguments String.append !s1 s2 : simpl nomatch.

Lemma append_assoc (a b c : string) : (a +:+ b) +:+ c = a +:+ (b +:+ c).
Proof. induction a as [|x a IH]; simpl; [reflexivity | f_equal; exact IH]. Qed.

Lemma append_nil_r (a : string) : a +:+ EmptyString = a.
Proof. induction a as [|x a IH]; simpl; [reflexivity | f_equal; exact IH]. Qed.

Lemma length_append (a b : string) :
  String.length (a +:+ b) = (String.length a + String.length b)%nat.
Proof. induction a as [|x a IH]; simpl; [reflexivity | f_equal; exact IH]. Qed.

Lemma take_digits_uint (u : Decimal.uint) (rest : string) :
  boundary rest = true ->
  take_digits (NilEmpty.string_of_uint u +:+ rest) = (NilEmpty.string_of_uint u, rest).
Proof.
  intros Hb. induction u; simpl; try (rewrite IHu; reflexivity).
  destruct rest as [|c r]; [reflexivity|].
  simpl in Hb. apply andb_true_iff in Hb as [Hd _].
  simpl. destruct (is_digit c); [discriminate | reflexivity].
Qed.

Lemma uint_beq_refl (u : Decimal.uint) : Decimal.uint_beq u u = true.
Proof. induction u; simpl; auto. Qed.

Lemma to_int_normal (n : Z) : Decimal.norm (Z.to_int n) = Z.to_int n.
Proof. rewrite <- (DecimalZ.of_to n) at 2. symmetry. apply DecimalZ.to_of. Qed.

Lemma unorm_fixed_nonnil (u : Decimal.uint) : Decimal.unorm u = u -> u <> Decimal.Nil.
Proof. intros H ->. discriminate H. Qed.

Lemma nilzero_text (u : Decimal.uint) :
  u <> Decimal.Nil -> NilZero.string_of_uint u = NilEmpty.string_of_uint u.
Proof. destruct u; intros H; try reflexivity. now destruct H. Qed.

Lemma parse_number_unsigned (s : string) (c : ascii) (t : string) :
  s = String c t -> is_digit c = true ->
  parse_number s =
  let (ds, rest) := take_digits s in
  match NilZero.uint_of_string ds with
  | Some d =>
      if Decimal.uint_beq (Decimal.unorm d) d && negb (continues_number rest)
      then Some (Z.of_int (Decimal.Pos d), rest)
      else None
  | None => None
  end.
Proof.
  intros -> Hd. unfold parse_number.
  destruct (Ascii.eqb_spec c "-"%char) as [->|]; [discriminate Hd | reflexivity].
Qed.

Lemma boundary_stops (rest : string) :
  boundary rest = true -> continues_number rest = false.
Proof.
  destruct rest as [|c r]; [reflexivity|]. unfold boundary.
  intros H. apply andb_true_iff in H as [_ H]. now apply negb_true_iff in H.
Qed.

(** The digits of a normal numeral are read back as that numeral. *)
Lemma digits_scan (u : Decimal.uint) (rest : string) :
  Decimal.unorm u = u -> boundary rest = true ->
  take_digits (NilEmpty.string_of_uint u +:+ rest) = (NilEmpty.string_of_uint u, rest) /\
  NilZero.uint_of_string (NilEmpty.string_of_uint u) = Some u /\
  NilZero.string_of_uint u = NilEmpty.string_of_uint u /\
  exists c t, NilEmpty.string_of_uint u = String c t /\ is_digit c = true.
Proof.
  intros Hn Hb.
  assert (Hnil : u <> Decimal.Nil) by now apply unorm_fixed_nonnil.
  split; [now apply take_digits_uint|].
  split; [rewrite <- nilzero_text by assumption; now apply NilZero.usu|].
  split; [now apply nilzero_text|].
  destruct u; try (now destruct Hnil); simpl; eauto.
Qed.

Lemma number_roundtrip (n : Z) (rest : string) :
  boundary rest = true ->
  parse_number (number_text n +:+ rest) = Some (n, rest).
Proof.
  intros Hb. unfold number_text.
  pose proof (to_int_normal n) as Hn. pose proof (DecimalZ.of_to n) as Hz.
  destruct (Z.to_int n) as [u|u] eqn:E.
  - simpl in Hn. injection Hn as Hn.
    destruct (digits_scan u rest Hn Hb) as (Ht & Hu & Hz0 & c & t & Hc & Hd).
    simpl. rewrite Hz0.
    rewrite (parse_number_unsigned _ c (t +:+ rest)); [| now rewrite Hc | exact Hd].
    rewrite Ht, Hu, Hn, uint_beq_refl, boundary_stops by assumption.
    simpl. now rewrite <- Hz.
  - assert (Hu : Decimal.unorm u = u).
    { simpl in Hn. unfold Decimal.unorm.
      destruct (Decimal.nzhead u); try discriminate Hn; now injection Hn. }
    destruct (digits_scan u rest Hu Hb) as (Ht & Hp & Hz0 & c & t & Hc & Hd).
    simpl. rewrite Hz0. unfold parse_number. simpl.
    rewrite Ht, Hp, Hu, uint_beq_refl, boundary_stops by assumption.
    simpl. now rewrite <- Hz.
Qed.

(** How a number starts. *)
Lemma number_text_head (n : Z) :
  exists c t, number_text n = String c t /\ (is_digit c = true \/ c = "-"%char).
Proof.
  unfold number_text.
  pose proof (to_int_normal n) as Hn.
  destruct (Z.to_int n) as [u|u] eqn:E.
  - simpl in Hn. injection Hn as Hn.
    destruct (digits_scan u EmptyString Hn eq_refl) as (_ & _ & Hz0 & c & t & Hc & Hd).
    exists c, t. simpl. rewrite Hz0. auto.
  - simpl. eauto.
Qed.

(** *** Strings *)

Lemma parse_chars_escape (s rest : string) :
  parse_chars (escape s +:+ String dquote rest) = Some (s, rest).
Proof.
  induction s as [|c s IH].
  - reflexivity.
  - simpl escape. rewrite append_assoc.
    destruct c as [[] [] [] [] [] [] [] []];
      match goal with
      | |- context [escape_char ?c] =>
          let v := eval vm_compute in (escape_char c) in
          change (escape_char c) with v
      end; simpl; rewrite IH; reflexivity.
Qed.

(** *** Values *)

Lemma need_arr items : need (VArr items) = S (need_items items).
Proof. reflexivity. Qed.

Lemma need_obj fields : need (VObj fields) = S (need_fields fields).
Proof. simpl. f_equal. induction fields as [|[k x] r IH]; simpl; [reflexivity | now rewrite IH]. Qed.

Lemma stringify_arr items :
  stringify (VArr items) = Some ("[" +:+ join "," (map element_text items) +:+ "]").
Proof.
  reflexivity.
Qed.

Lemma stringify_obj fields :
  stringify (VObj fields) = Some ("{" +:+ join "," (omap member_text fields) +:+ "}").
Proof.
  assert (H : forall l,
    (fix members (l : list (string * Value)) : list string :=
       match l with
       | [] => []
       | (k, x) :: r =>
           match stringify x with
           | Some t => (quote k +:+ ":" +:+ t) :: members r
           | None => members r
           end
       end) l = omap member_text l).
  { induction l as [|[k x] r IH]; [reflexivity|].
    cbn [omap list_omap]. unfold member_text at 1. cbn [fst snd].
    destruct (stringify x); now rewrite IH. }
  cbn [stringify]. now rewrite H.
Qed.

Lemma skip_ws_head (s : string) : head_ok s = true -> skip_ws s = s.
Proof.
  destruct s as [|c r]; [reflexivity|]. simpl. intros H.
  destruct (is_ws c); [discriminate H | reflexivity].
Qed.

Lemma head_ok_append (s r : string) : head_ok s = true -> head_ok (s +:+ r) = true.
Proof. destruct s; [discriminate | auto]. Qed.

Lemma reads_back_null : reads_back VNull.
Proof.
  repeat split; try (simpl; lia).
  intros [|f] rest Hf _; [simpl in Hf; lia | reflexivity].
Qed.

Lemma reads_back_bool b : reads_back (VBool b).
Proof.
  repeat split; try (destruct b; simpl; (reflexivity || lia)).
  intros [|f] rest Hf _; [simpl in Hf; lia | destruct b; reflexivity].
Qed.

Lemma reads_back_str s : reads_back (VStr s).
Proof.
  repeat split; try reflexivity.
  - simpl. lia.
  - intros [|f] rest Hf _; [simpl in Hf; lia|].
    unfold text_of. simpl stringify. simpl default. unfold quote.
    simpl. rewrite append_assoc. simpl. now rewrite parse_chars_escape.
Qed.

Lemma reads_back_num n : reads_back (VNum n).
Proof.
  destruct (number_text_head n) as (c & t & Ht & Hc).
  assert (Hhead : head_ok (number_text n) = true).
  { rewrite Ht. destruct Hc as [Hd| ->]; [|reflexivity].
    destruct c as [[] [] [] [] [] [] [] []]; try discriminate Hd; reflexivity. }
  repeat split; try reflexivity.
  - exact Hhead.
  - unfold text_of. simpl. rewrite Ht. simpl. lia.
  - intros [|f] rest Hf Hb; [simpl in Hf; lia|].
    unfold text_of. simpl stringify. simpl default.
    pose proof (number_roundtrip n rest Hb) as Hp.
    simpl. rewrite skip_ws_head by now apply head_ok_append.
    rewrite Ht in *. simpl.
    destruct Hc as [Hd| ->].
    + destruct c as [[] [] [] [] [] [] [] []]; try discriminate Hd;
        simpl in *; rewrite Hp; reflexivity.
    + simpl in *. rewrite Hp. reflexivity.
Qed.

Lemma parse_value_S f s :
  parse_value (S f) s =
  match skip_ws s with
  | EmptyString => None
  | String c r =>
      if Ascii.eqb c "n"%char then
        match expect "ull" r with Some rest => Some (VNull, rest) | None => None end
      else if Ascii.eqb c "t"%char then
        match expect "rue" r with Some rest => Some (VBool true, rest) | None => None end
      else if Ascii.eqb c "f"%char then
        match expect "alse" r with Some rest => Some (VBool false, rest) | None => None end
      else if Ascii.eqb c dquote then
        match parse_chars r with Some (t, rest) => Some (VStr t, rest) | None => None end
      else if Ascii.eqb c "["%char then
        match skip_ws r with
        | String c' r' =>
            if Ascii.eqb c' "]"%char then Some (VArr [], r')
            else match parse_elements f r with
                 | Some (vs, rest) => Some (VArr vs, rest)
                 | None => None
                 end
        | EmptyString => None
        end
      else if Ascii.eqb c "{"%char then
        match skip_ws r with
        | String c' r' =>
            if Ascii.eqb c' "}"%char then Some (VObj [], r')
            else match parse_members f r [] with
                 | Some (fs, rest) => Some (VObj fs, rest)
                 | None => None
                 end
        | EmptyString => None
        end
      else
        match parse_number (String c r) with
        | Some (n, rest) => Some (VNum n, rest)
        | None => None
        end
  end.
Proof. reflexivity. Qed.

Lemma parse_elements_S f s :
  parse_elements (S f) s =
  match parse_value f s with
  | Some (v, r) =>
      match skip_ws r with
      | String c r' =>
          if Ascii.eqb c ","%char then
            match parse_elements f r' with
            | Some (vs, rest) => Some (v :: vs, rest)
            | None => None
            end
          else if Ascii.eqb c "]"%char then Some ([v], r')
          else None
      | EmptyString => None
      end
  | None => None
  end.
Proof. reflexivity. Qed.

Lemma parse_members_S f s acc :
  parse_members (S f) s acc =
  match skip_ws s with
  | String q r =>
      if Ascii.eqb q dquote then
        match parse_chars r with
        | Some (k, r1) =>
            match skip_ws r1 with
            | String c r2 =>
                if Ascii.eqb c ":"%char then
                  match parse_value f r2 with
                  | Some (v, r3) =>
                      match skip_ws r3 with
                      | String c' r4 =>
                          if Ascii.eqb c' ","%char then parse_members f r4 (set_own k v acc)
                          else if Ascii.eqb c' "}"%char then Some (set_own k v acc, r4)
                          else None
                      | EmptyString => None
                      end
                  | None => None
                  end
                else None
            | EmptyString => None
            end
        | None => None
        end
      else None
  | EmptyString => None
  end.
Proof. reflexivity. Qed.

Lemma element_text_of (x : Value) : reads_back x -> element_text x = text_of x.
Proof. intros (H & _). unfold element_text. now rewrite H. Qed.

Lemma parse_elements_items (items : list Value) :
  items <> [] -> Forall reads_back items ->
  forall fuel rest, (need_items items <= fuel)%nat ->
  parse_elements fuel (join "," (map element_text items) +:+ String "]" rest)
  = Some (items, rest).
Proof.
  induction items as [|x r IH]; [congruence|].
  intros _ HF fuel rest Hfuel.
  apply Forall_cons in HF as [Hx Hr].
  destruct fuel as [|fuel]; [simpl in Hfuel; lia|].
  simpl in Hfuel. rewrite parse_elements_S.
  pose proof (element_text_of x Hx) as Ex.
  destruct Hx as (_ & _ & _ & Hparse).
  destruct r as [|y r'].
  - cbn [map join]. rewrite Ex.
    rewrite Hparse by (reflexivity || lia). reflexivity.
  - change (join "," (map element_text (x :: y :: r')))
      with (element_text x +:+ "," +:+ join "," (map element_text (y :: r'))).
    rewrite Ex, !append_assoc.
    change ("," +:+ ?a) with (String "," a).
    rewrite Hparse by (reflexivity || lia).
    simpl skip_ws. simpl Ascii.eqb. cbv iota.
    rewrite IH; [reflexivity | congruence | assumption | lia].
Qed.

Lemma need_items_length (items : list Value) :
  Forall reads_back items ->
  (need_items items <= String.length (join "," (map element_text items)) + 1)%nat.
Proof.
  induction items as [|x r IH]; intros HF; [simpl; lia|].
  apply Forall_cons in HF as [Hx Hr]. specialize (IH Hr).
  pose proof (element_text_of x Hx) as Ex.
  destruct Hx as (_ & _ & Hlen & _).
  destruct r as [|y r'].
  - unfold need_items. cbn [map join fold_right]. rewrite Ex. lia.
  - change (join "," (map element_text (x :: y :: r')))
      with (element_text x +:+ "," +:+ join "," (map element_text (y :: r'))).
    rewrite Ex, !length_append.
    change (need_items (x :: y :: r')) with (S (need x + need_items (y :: r'))).
    change (String.length ",") with 1%nat. lia.
Qed.

Lemma join_head (sep : string) (p : string) (r : list string) (rest : string) :
  head_ok p = true -> head_ok (join sep (p :: r) +:+ rest) = true.
Proof.
  intros H. destruct r; cbn [join]; [now apply head_ok_append|].
  rewrite append_assoc. now apply head_ok_append.
Qed.

Lemma head_ok_not_close (s : string) c r :
  head_ok s = true -> s = String c r ->
  is_ws c = false /\ Ascii.eqb c "]"%char = false /\ Ascii.eqb c "}"%char = false.
Proof.
  intros H ->. simpl in H.
  destruct (is_ws c), (Ascii.eqb c "]"), (Ascii.eqb c "}"); simpl in H;
    try discriminate H; auto.
Qed.

Lemma reads_back_arr (items : list Value) :
  Forall reads_back items -> reads_back (VArr items).
Proof.
  intros HF.
  assert (Htext : text_of (VArr items) = "[" +:+ join "," (map element_text items) +:+ "]").
  { unfold text_of. now rewrite stringify_arr. }
  split; [now rewrite Htext, stringify_arr|].
  split; [now rewrite Htext|].
  split.
  { rewrite Htext, need_arr. pose proof (need_items_length items HF).
    rewrite !length_append. simpl String.length. lia. }
  intros fuel rest Hfuel Hb. rewrite Htext, need_arr in *.
  destruct fuel as [|fuel]; [lia|].
  rewrite parse_value_S.
  destruct items as [|x r]; [reflexivity|].
  rewrite !append_assoc.
  change ("[" +:+ ?a) with (String "[" a). change ("]" +:+ ?a) with (String "]" a).
  rewrite (skip_ws_head (String "[" _)) by reflexivity.
  simpl Ascii.eqb. cbv iota.
  pose proof (parse_elements_items (x :: r) ltac:(congruence) HF fuel rest ltac:(lia)) as Hp.
  assert (Hh : head_ok (join "," (map element_text (x :: r)) +:+ String "]" rest) = true).
  { cbn [map]. apply join_head. apply Forall_cons in HF as [Hx _].
    rewrite (element_text_of x Hx). apply Hx. }
  rewrite (skip_ws_head _ Hh).
  destruct (join "," (map element_text (x :: r)) +:+ String "]" rest) as [|c s] eqn:E;
    [discriminate Hh|].
  destruct (head_ok_not_close _ c s Hh eq_refl) as (_ & Hc & _).
  rewrite Hc, Hp. reflexivity.
Qed.

(** *** Objects *)

Lemma get_own_app {A} (k k' : string) (x : A) (l : list (string * A)) :
  get_own k (l ++ [(k', x)])%list =
  match get_own k l with
  | Some y => Some y
  | None => if String.eqb k k' then Some x else None
  end.
Proof.
  induction l as [|[k0 x0] r IH]; simpl; [reflexivity|].
  destruct (String.eqb k k0); [reflexivity | exact IH].
Qed.

Lemma set_own_fresh {A} (k : string) (x : A) (l : list (string * A)) :
  get_own k l = None -> plain_key k = true -> set_own k x l = (l ++ [(k, x)])%list.
Proof.
  unfold set_own, plain_key. intros -> H.
  destruct (array_index k); [discriminate H | reflexivity].
Qed.

Lemma member_text_of (k : string) (x : Value) :
  reads_back x -> member_text (k, x) = Some (quote k +:+ ":" +:+ text_of x).
Proof. intros (H & _). unfold member_text. simpl. now rewrite H. Qed.

Lemma member_shape (k tx rest : string) :
  (quote k +:+ ":" +:+ tx) +:+ rest
  = String dquote (escape k +:+ String dquote (String ":" (tx +:+ rest))).
Proof. unfold quote. simpl. now rewrite !append_assoc. Qed.

Lemma existsb_eqb_false (k : string) (ks : list string) :
  existsb (String.eqb k) ks = false -> Forall (fun k' => String.eqb k' k = false) ks.
Proof.
  induction ks as [|k' r IH]; simpl; intros H; constructor.
  - apply orb_false_iff in H as [H _]. now rewrite String.eqb_sym.
  - apply IH. now apply orb_false_iff in H as [_ H].
Qed.

Lemma fresh_for_snoc (acc : list (string * Value)) k x fields :
  fresh_for acc fields ->
  Forall (fun k' => String.eqb k' k = false) (map fst fields) ->
  fresh_for (acc ++ [(k, x)])%list fields.
Proof.
  unfold fresh_for. induction fields as [|[k' x'] r IH]; intros HF Hk; constructor.
  - apply Forall_cons in HF as [H _]. apply Forall_cons in Hk as [Hk _].
    simpl in *. now rewrite get_own_app, H, Hk.
  - apply Forall_cons in HF as [_ HF]. apply Forall_cons in Hk as [_ Hk]. now apply IH.
Qed.

Lemma omap_member_text (fields : list (string * Value)) :
  Forall (fun kv => reads_back (snd kv)) fields ->
  omap member_text fields = map member_string fields.
Proof.
  induction fields as [|[k x] r IH]; intros HF; [reflexivity|].
  apply Forall_cons in HF as [Hx Hr]. cbn [omap list_omap map].
  rewrite (member_text_of k x Hx), IH by assumption. reflexivity.
Qed.

Lemma parse_members_fields (fields : list (string * Value)) :
  fields <> [] -> Forall (fun kv => reads_back (snd kv)) fields ->
  distinct (map fst fields) = true -> forallb plain_key (map fst fields) = true ->
  forall fuel rest acc, (need_fields fields <= fuel)%nat -> fresh_for acc fields ->
  parse_members fuel (join "," (map member_string fields) +:+ String "}" rest) acc
  = Some ((acc ++ fields)%list, rest).
Proof.
  induction fields as [|[k x] r IH]; [congruence|].
  intros _ HF Hd Hp fuel rest acc Hfuel Hfresh.
  apply Forall_cons in HF as [Hx Hr]. simpl in Hx.
  simpl in Hd, Hp. apply andb_true_iff in Hd as [Hk Hd]. apply andb_true_iff in Hp as [Hpk Hp].
  apply negb_true_iff in Hk.
  apply Forall_cons in Hfresh as [Hnew Hfresh]. simpl in Hnew.
  destruct fuel as [|fuel]; [simpl in Hfuel; lia|].
  unfold need_fields in Hfuel. simpl in Hfuel. fold (need_fields r) in Hfuel.
  rewrite parse_members_S.
  destruct Hx as (_ & _ & _ & Hparse).
  assert (Hstep : forall tail c,
    (c = ","%char \/ c = "}"%char) ->
    match skip_ws (String dquote (escape k +:+ String dquote
                     (String ":" (text_of x +:+ String c tail)))) with
    | String q r0 =>
        if Ascii.eqb q dquote then
          match parse_chars r0 with
          | Some (k0, r1) =>
              match skip_ws r1 with
              | String c0 r2 =>
                  if Ascii.eqb c0 ":"%char then
                    match parse_value fuel r2 with
                    | Some (v, r3) =>
                        match skip_ws r3 with
                        | String c' r4 =>
                            if Ascii.eqb c' ","%char then parse_members fuel r4 (set_own k0 v acc)
                            else if Ascii.eqb c' "}"%char then Some (set_own k0 v acc, r4)
                            else None
                        | EmptyString => None
                        end
                    | None => None
                    end
                  else None
              | EmptyString => None
              end
          | None => None
          end
        else None
    | EmptyString => None
    end
    = if Ascii.eqb c ","%char then parse_members fuel tail (acc ++ [(k, x)])%list
      else Some ((acc ++ [(k, x)])%list, tail)).
  { intros tail c Hc.
    rewrite (skip_ws_head (String dquote _)) by reflexivity.
    rewrite Ascii.eqb_refl, parse_chars_escape.
    rewrite (skip_ws_head (String ":" _)) by reflexivity.
    rewrite Ascii.eqb_refl.
    rewrite Hparse; [| lia | destruct Hc as [-> | ->]; reflexivity].
    rewrite set_own_fresh by assumption.
    destruct Hc as [-> | ->]; reflexivity. }
  destruct r as [|[k' x'] r'].
  - cbn [map join]. unfold member_string. cbn [fst snd].
    rewrite member_shape, (Hstep rest "}"%char) by auto.
    reflexivity.
  - change (join "," (map member_string ((k, x) :: (k', x') :: r')))
      with ((quote k +:+ ":" +:+ text_of x) +:+ "," +:+ join "," (map member_string ((k', x') :: r'))).
    rewrite append_assoc, member_shape.
    change (("," +:+ ?a) +:+ ?b) with (String "," (a +:+ b)).
    rewrite (Hstep _ ","%char) by auto. simpl Ascii.eqb. cbv iota.
    rewrite IH; try assumption; try congruence; try lia.
    + now rewrite <- app_assoc.
    + apply fresh_for_snoc; [assumption | now apply existsb_eqb_false].
Qed.

Lemma need_fields_length (fields : list (string * Value)) :
  Forall (fun kv => reads_back (snd kv)) fields ->
  (need_fields fields <= String.length (join "," (map member_string fields)) + 1)%nat.
Proof.
  induction fields as [|[k x] r IH]; intros HF; [simpl; lia|].
  apply Forall_cons in HF as [Hx Hr]. specialize (IH Hr).
  destruct Hx as (_ & _ & Hlen & _). cbn [snd] in Hlen.
  assert (Hm : (need x <= String.length (member_string (k, x)))%nat).
  { unfold member_string. cbn [fst snd]. rewrite !length_append. lia. }
  destruct r as [|y r'].
  - unfold need_fields. cbn [map join fold_right snd]. lia.
  - change (join "," (map member_string ((k, x) :: y :: r')))
      with (member_string (k, x) +:+ "," +:+ join "," (map member_string (y :: r'))).
    rewrite !length_append.
    change (need_fields ((k, x) :: y :: r')) with (S (need x + need_fields (y :: r'))).
    change (String.length ",") with 1%nat. lia.
Qed.

Lemma reads_back_obj (fields : list (string * Value)) :
  Forall (fun kv => reads_back (snd kv)) fields ->
  distinct (map fst fields) = true -> forallb plain_key (map fst fields) = true ->
  reads_back (VObj fields).
Proof.
  intros HF Hd Hp.
  assert (Htext : text_of (VObj fields) = "{" +:+ join "," (map member_string fields) +:+ "}").
  { unfold text_of. now rewrite stringify_obj, omap_member_text. }
  split; [now rewrite Htext, stringify_obj, omap_member_text|].
  split; [now rewrite Htext|].
  split.
  { rewrite Htext, need_obj. pose proof (need_fields_length fields HF).
    rewrite !length_append. change (String.length "{") with 1%nat.
    change (String.length "}") with 1%nat. lia. }
  intros fuel rest Hfuel Hb. rewrite Htext, need_obj in *.
  destruct fuel as [|fuel]; [lia|].
  rewrite parse_value_S.
  destruct fields as [|[k x] r]; [reflexivity|].
  rewrite !append_assoc.
  change ("{" +:+ ?a) with (String "{" a). change ("}" +:+ ?a) with (String "}" a).
  rewrite (skip_ws_head (String "{" _)) by reflexivity.
  simpl Ascii.eqb. cbv iota.
  pose proof (parse_members_fields ((k, x) :: r) ltac:(congruence) HF Hd Hp fuel rest []
                ltac:(lia)) as Hparse.
  rewrite Hparse by (unfold fresh_for; apply Forall_forall; reflexivity).
  assert (Hh : head_ok (join "," (map member_string ((k, x) :: r)) +:+ String "}" rest) = true).
  { cbn [map]. apply join_head. reflexivity. }
  rewrite (skip_ws_head _ Hh).
  destruct (join "," (map member_string ((k, x) :: r)) +:+ String "}" rest) as [|c s] eqn:E;
    [discriminate Hh|].
  destruct (head_ok_not_close _ c s Hh eq_refl) as (_ & _ & Hc).
  rewrite Hc. reflexivity.
Qed.

(** Every representable value is read back from its text. *)
Lemma representable_reads_back (v : Value) : representable v = true -> reads_back v.
Proof.
  revert v.
  apply (Value_rect' (fun v => representable v = true -> reads_back v)
           (fun items => forallb representable items = true -> Forall reads_back items)
           (fun fields => forallb (fun kv => representable (snd kv)) fields = true ->
                          Forall (fun kv => reads_back (snd kv)) fields)).
  - discriminate.
  - intros _. apply reads_back_null.
  - intros b _. apply reads_back_bool.
  - intros n _. apply reads_back_num.
  - intros s _. apply reads_back_str.
  - intros items IH H. apply reads_back_arr, IH. exact H.
  - intros fields IH H. simpl in H.
    apply andb_true_iff in H as [H H3]. apply andb_true_iff in H as [H1 H2].
    apply reads_back_obj; auto.
  - discriminate.
  - constructor.
  - intros x r Hx Hr H. simpl in H. apply andb_true_iff in H as [H1 H2]. constructor; auto.
  - constructor.
  - intros k x r Hx Hr H. simpl in H. apply andb_true_iff in H as [H1 H2]. constructor; auto.
Qed.

Lemma head_ok_nonempty (s : string) : head_ok s = true -> truthy_text (Some s) = true.
Proof. destruct s; [discriminate | reflexivity]. Qed.

(** [JSON.parse(JSON.stringify(v))] is [v]. *)
Lemma parse_stringify (v : Value) :
  representable v = true ->
  exists text, stringify v = Some text /\ truthy_text (Some text) = true /\
               parse text = Normal v.
Proof.
  intros H. destruct (representable_reads_back v H) as (Hs & Hh & Hlen & Hp).
  exists (text_of v). split; [exact Hs|]. split; [now apply head_ok_nonempty|].
  unfold parse. specialize (Hp (2 * String.length (text_of v) + 2)%nat EmptyString).
  rewrite append_nil_r in Hp. rewrite Hp; [reflexivity | lia | reflexivity].
Qed.

(** The text of a value is never empty. *)
Lemma stringify_nonempty (v : Value) (text : string) :
  stringify v = Some text -> truthy_text (Some text) = true.
Proof.
  destruct v as [| |b|n|s|items|fields|k msg]; simpl; intros [= <-]; try reflexivity.
  - now destruct b.
  - destruct (number_text_head n) as (c & t & -> & _). reflexivity.
Qed.

End CodecFacts.

(* ===================================================================== *)
(** ** Runs and their steps                                               *)
(* ===================================================================== *)

Module TraceFacts.
Import JS JSON Classes Entity Trace.

Section Facts.
Variable clock : nat -> Z.
Variable functions : FunRef -> Obj -> list Value -> MethodResult.

Lemma run_app (a b : list Step) (m : Machine) :
  run clock (a ++ b) m = run clock b (run clock a m).
Proof. unfold run. apply fold_left_app. Qed.

Lemma run_cons (s : Step) (r : list Step) (m : Machine) :
  run clock (s :: r) m = run clock r (step clock s m).
Proof. reflexivity. Qed.

(** [dispatch] does what its steps do. *)
Lemma dispatch_run (currentRequest : RequestMessage.t) (startTime : Z)
    (entityFactory : unit -> Obj) (m : Machine) :
  snd (dispatch clock functions currentRequest startTime entityFactory m)
  = run clock (dispatch_steps functions currentRequest startTime entityFactory m) m.
Proof.
  unfold dispatch, dispatch_steps.
  destruct (RequestMessage.name currentRequest) as [operationName|]; [|reflexivity].
  destruct (negb (truthy (VStr operationName))); [reflexivity|].
  destruct (getState _ _) as [state|e]; [|reflexivity].
  destruct (get _ operationName) as [[v|f]|]; try reflexivity.
  destruct (getInput currentRequest) as [input|e]; [|reflexivity].
  destruct (spread input) as [args|e]; [|reflexivity].
  destruct (call functions f _ args); reflexivity.
Qed.

(** A call on [context.df] does what its steps do. *)
Lemma perform_run (c : ContextCall) (m : Machine) :
  snd (perform clock functions c m) = run clock (call_steps functions c m) m.
Proof.
  unfold perform, call_steps.
  destruct (df m) as [d|]; [|reflexivity].
  destruct c as [i|v| |v| |id args|f]; try reflexivity.
  - destruct args as [arg2 arg3|entityObject action]; [reflexivity|].
    unfold signalEntity.
    destruct (createEntityProxy entityObject (heap m)) as [[proxy h]|]; [|reflexivity].
    destruct (h !! proxy) as [o|]; [|reflexivity].
    destruct (action o) as [sp|e]; [|reflexivity].
    destruct (get_member sp "operationName") as [n|e]; [|reflexivity].
    destruct (get_member sp "operationContent") as [i|e]; reflexivity.
  - apply dispatch_run.
Qed.

Lemma exec_run (s : Script) (m : Machine) :
  snd (exec clock functions s m) = run clock (exec_steps clock functions s m) m.
Proof.
  revert m. induction s as [| e | k IH | c k IH]; intros m; try reflexivity.
  simpl. pose proof (perform_run c m) as Hp.
  destruct (perform clock functions c m) as [o m']. simpl in Hp.
  rewrite run_app, <- Hp. apply IH.
Qed.

Lemma iteration_run (fn : UserFunction) (b : DurableEntityBindingInfo.t) (i : nat)
    (m m' : Machine) :
  iteration clock functions fn b i m = Normal m' ->
  m' = run clock (iteration_steps clock functions fn b i m) m.
Proof.
  unfold iteration, iteration_steps, new_Date.
  destruct (getCurrentDurableEntityContext b _ i _) as [d|e]; [|discriminate].
  intros [= <-]. unfold try_fn, call_fn.
  pose proof (exec_run (body fn d) (with_df d (tick m))) as He.
  destruct (exec clock functions (body fn d) (with_df d (tick m))) as [c m3].
  simpl in He. rewrite !run_app. simpl run at 2.
  change (run clock [STick; SContext d] m) with (with_df d (tick m)).
  rewrite <- He.
  destruct (async fn), c as [|e]; simpl;
    try (destruct (array_get _ i); reflexivity); reflexivity.
Qed.

Lemma loop_run (fn : UserFunction) (b : DurableEntityBindingInfo.t) (indices : list nat)
    (m m' : Machine) :
  loop clock functions fn b indices m = Normal m' ->
  m' = run clock (loop_steps clock functions fn b indices m) m.
Proof.
  revert m. induction indices as [|i rest IH]; intros m; simpl.
  - now intros [= <-].
  - destruct (iteration clock functions fn b i m) as [m1|e] eqn:E; [|discriminate].
    intros H. rewrite run_app, <- (iteration_run _ _ _ _ _ E). now apply IH.
Qed.

Lemma job_run (j : Job) (m : Machine) :
  run_job clock functions j m = run clock (job_steps clock functions j m) m.
Proof.
  destruct j as [k|entity startTime [result|e]]; try reflexivity.
  apply exec_run.
Qed.

(** *** What a step leaves alone *)

Lemma exists_step (s : Step) (m : Machine) :
  exists_of (step clock s m) = exists_after [s] (exists_of m).
Proof. destruct s; reflexivity. Qed.

Lemma exists_run (steps : list Step) (m : Machine) :
  exists_of (run clock steps m) = exists_after steps (exists_of m).
Proof.
  revert m. induction steps as [|s r IH]; intros m; [reflexivity|].
  rewrite run_cons, IH, exists_step. reflexivity.
Qed.

Lemma state_step (s : Step) (m : Machine) :
  writes_state s = false -> state_of (step clock s m) = state_of m.
Proof. destruct s; (discriminate || reflexivity). Qed.

Lemma state_run (steps : list Step) (m : Machine) :
  forallb (fun s => negb (writes_state s)) steps = true ->
  state_of (run clock steps m) = state_of m.
Proof.
  revert m. induction steps as [|s r IH]; intros m H; [reflexivity|].
  simpl in H. apply andb_true_iff in H as [Hs Hr]. apply negb_true_iff in Hs.
  rewrite run_cons, IH, state_step by assumption. reflexivity.
Qed.

Lemma df_step (s : Step) (m : Machine) :
  is_Some (df m) -> is_Some (df (step clock s m)).
Proof.
  intros H. destruct s; simpl; try exact H; try (eexists; reflexivity).
Qed.

Lemma df_run (steps : list Step) (m : Machine) :
  is_Some (df m) -> is_Some (df (run clock steps m)).
Proof.
  revert m. induction steps as [|s r IH]; intros m H; [exact H|].
  rewrite run_cons. apply IH, df_step, H.
Qed.

Lemma quiet_steps (c : ContextCall) (m : Machine) :
  quiet c = true ->
  forallb (fun s => negb (writes_state s)) (call_steps functions c m) = true.
Proof.
  intros Hq. unfold call_steps. destruct (df m) as [d|]; [|reflexivity].
  destruct c as [i|v| |v| |id args|f]; try discriminate Hq; try reflexivity.
  destruct args as [arg2 arg3|entityObject action]; [reflexivity|].
  destruct (createEntityProxy entityObject (heap m)) as [[proxy h]|]; [|reflexivity].
  simpl. destruct (h !! proxy) as [o|]; [|reflexivity].
  destruct (action o) as [sp|e]; [|reflexivity].
  destruct (get_member sp "operationName") as [n|e]; [|reflexivity].
  destruct (get_member sp "operationContent") as [inp|e]; reflexivity.
Qed.

Lemma perform_all_quiet (cs : list ContextCall) (m : Machine) :
  forallb quiet cs = true -> is_Some (df m) ->
  state_of (perform_all clock functions cs m) = state_of m /\
  is_Some (df (perform_all clock functions cs m)).
Proof.
  revert m. induction cs as [|c r IH]; intros m Hq Hd; [split; [reflexivity | exact Hd]|].
  simpl in Hq. apply andb_true_iff in Hq as [Hc Hr].
  unfold perform_all. simpl.
  fold (perform_all clock functions r (snd (perform clock functions c m))).
  rewrite (perform_run c m).
  destruct (IH (run clock (call_steps functions c m) m) Hr) as [Hs Hdf].
  { now apply df_run. }
  split; [|exact Hdf].
  rewrite Hs. apply state_run. now apply quiet_steps.
Qed.

End Facts.
End TraceFacts.

(* ===================================================================== *)
(** ** Properties of objects                                              *)
(* ===================================================================== *)

Module ObjectFacts.
Import JS Entity Pred.

Section Own.
Context {A : Type}.
Implicit Types (l : list (string * A)) (k p : string) (x : A).

Lemma get_own_replace_own p k x l :
  get_own p (replace_own k x l) =
  if String.eqb p k then (match get_own k l with Some _ => Some x | None => None end)
  else get_own p l.
Proof.
  induction l as [|[k' x'] r IH]; simpl.
  - now destruct (String.eqb p k).
  - destruct (String.eqb_spec k k') as [->|Hk]; simpl.
    + destruct (String.eqb_spec p k') as [->|Hp]; reflexivity.
    + rewrite IH. destruct (String.eqb_spec p k') as [->|Hp].
      * destruct (String.eqb_spec k' k) as [->|_]; [contradiction | reflexivity].
      * reflexivity.
Qed.

Lemma get_own_insert_index p n k x l :
  get_own k l = None ->
  get_own p (insert_index n k x l) = if String.eqb p k then Some x else get_own p l.
Proof.
  induction l as [|[k' x'] r IH]; simpl; intros Hk.
  - reflexivity.
  - destruct (String.eqb_spec k k') as [->|Hkk]; [discriminate Hk|].
    destruct (array_index k') as [n'|]; [destruct (n' <? n)%N|]; simpl;
      try reflexivity.
    rewrite (IH Hk).
    destruct (String.eqb_spec p k') as [->|Hp]; [|reflexivity].
    destruct (String.eqb_spec k' k) as [->|_]; [contradiction | reflexivity].
Qed.

(** Reading after [o[k] = x]. *)
Lemma get_own_set_own p k x l :
  get_own p (set_own k x l) = if String.eqb p k then Some x else get_own p l.
Proof.
  unfold set_own. destruct (get_own k l) as [y|] eqn:E.
  - rewrite get_own_replace_own, E. reflexivity.
  - destruct (array_index k) as [n|].
    + now apply get_own_insert_index.
    + rewrite CodecFacts.get_own_app.
      destruct (String.eqb_spec p k) as [->|Hp]; [now rewrite E|].
      now destruct (get_own p l).
Qed.

Lemma get_own_names p l s :
  get_own p l = Some s -> existsb (String.eqb p) (map fst l) = true.
Proof.
  induction l as [|[k' x'] r IH]; simpl; [discriminate|].
  destruct (String.eqb p k'); [reflexivity | exact IH].
Qed.
End Own.

Lemma get_set (o : Obj) (k p : string) (s : Slot) :
  get (set o k s) p = if String.eqb p k then Some s else get o p.
Proof.
  unfold get, set. simpl. rewrite get_own_set_own.
  now destruct (String.eqb p k).
Qed.

Lemma mem_app p a b : mem p (a ++ b) = mem p a || mem p b.
Proof. apply existsb_app. Qed.

(** A function member is found under one of the names that
    [createEntityProxy] collects. *)
Lemma function_is_named (o : Obj) (p : string) :
  is_function (get o p) = true -> mem p (property_names o) = true.
Proof.
  unfold get, property_names. rewrite mem_app.
  generalize (own o :: protos o) as chain.
  induction chain as [|t rest IH]; intros H.
  - cbn [get_chain] in H. unfold Object_prototype_get in H. unfold mem at 2.
    destruct (existsb (String.eqb p) Object_prototype_names); [apply orb_true_r|].
    destruct (String.eqb p "__proto__"); discriminate H.
  - cbn [get_chain] in H. cbn [flat_map]. rewrite mem_app.
    destruct (get_own p t) as [s|] eqn:E.
    + unfold mem at 1. now rewrite (get_own_names p t s E).
    + rewrite <- orb_assoc. rewrite (IH H). apply orb_true_r.
Qed.

(** What the loop of [createEntityProxy] leaves behind. *)
Lemma stub_all (names : list string) (o : Obj) :
  let o' := fold_left stub_if_function names o in
  protos o' = protos o /\
  forall p,
    get_own p (own o') =
      (if is_function (get o p) && mem p names then Some (Fn (Stub p))
       else get_own p (own o)) /\
    is_function (get o' p) = is_function (get o p).
Proof.
  revert o. induction names as [|n rest IH]; intros o; simpl.
  - split; [reflexivity|]. intros p. rewrite andb_false_r. split; reflexivity.
  - destruct (IH (stub_if_function o n)) as [Hprotos Hp].
    assert (Hstep : forall p,
      get_own p (own (stub_if_function o n)) =
        (if is_function (get o p) && String.eqb p n then Some (Fn (Stub p))
         else get_own p (own o)) /\
      is_function (get (stub_if_function o n) p) = is_function (get o p) /\
      protos (stub_if_function o n) = protos o).
    { intros p. unfold stub_if_function.
      destruct (is_function (get o n)) eqn:Hn.
      - simpl own. rewrite get_own_set_own, get_set.
        destruct (String.eqb_spec p n) as [->|Hne].
        + rewrite Hn. simpl. auto.
        + rewrite andb_false_r. auto.
      - destruct (String.eqb_spec p n) as [->|Hne].
        + rewrite Hn. simpl. auto.
        + rewrite andb_false_r. auto. }
    split.
    + rewrite Hprotos. apply (Hstep n).
    + intros p. destruct (Hp p) as [Hown Hfun]. destruct (Hstep p) as (Sown & Sfun & _).
      split; [|now rewrite Hfun].
      rewrite Hown, Sfun, Sown. unfold mem. simpl.
      destruct (is_function (get o p)); simpl; [|reflexivity].
      destruct (String.eqb p n); simpl; [|reflexivity].
      now destruct (existsb (String.eqb p) rest).
Qed.

End ObjectFacts.

(* ===================================================================== *)
(** ** The results of a batch                                             *)
(* ===================================================================== *)

Module BatchFacts.
Import JS JSON Classes Entity Pred.

Section Facts.
Variable clock : nat -> Z.
Variable functions : FunRef -> Obj -> list Value -> MethodResult.

Lemma grows_none (m m' : Machine) : results_of m' = results_of m -> grows_by 0 m m'.
Proof. intros H. exists []. rewrite H, app_nil_r. auto. Qed.

Lemma grows_one (m m' : Machine) r :
  results_of m' = (results_of m ++ [Some r])%list -> grows_by 1 m m'.
Proof. intros H. exists [r]. auto. Qed.

Lemma grows_weaken n n' m m' : (n <= n')%nat -> grows_by n m m' -> grows_by n' m m'.
Proof. intros Hn (added & H & Hl). exists added. split; [exact H | lia]. Qed.

Lemma dispatch_results currentRequest startTime entityFactory (m : Machine) :
  grows_by 1 m (snd (dispatch clock functions currentRequest startTime entityFactory m)).
Proof.
  unfold dispatch.
  repeat match goal with
         | |- context [match ?x with _ => _ end] => destruct x
         end; simpl snd;
    first [ apply (grows_weaken 0); [lia | apply grows_none; reflexivity]
          | eapply grows_one; reflexivity ].
Qed.

(** What a call on the context adds to the results. *)
Lemma perform_results (c : ContextCall) (m : Machine) :
  grows_by (match c with Return _ | Dispatch _ => 1 | _ => 0 end) m
           (snd (perform clock functions c m)).
Proof.
  unfold perform. destruct (df m) as [d|].
  2:{ destruct c; (apply grows_none || (apply (grows_weaken 0); [lia | apply grows_none])); reflexivity. }
  destruct c as [i|v| |v| |id args|f]; try (apply grows_none; reflexivity).
  - eapply grows_one. reflexivity.
  - apply grows_none. destruct args as [arg2 arg3|entityObject action]; [reflexivity|].
    unfold signalEntity.
    destruct (createEntityProxy entityObject (heap m)) as [[proxy h]|]; [|reflexivity].
    destruct (h !! proxy) as [o|]; [|reflexivity].
    destruct (action o) as [sp|e]; [|reflexivity].
    destruct (get_member sp "operationName") as [n|e]; [|reflexivity].
    destruct (get_member sp "operationContent") as [inp|e]; reflexivity.
  - apply dispatch_results.
Qed.

Lemma array_get_end {A} (a : list (option A)) : array_get a (length a) = None.
Proof. unfold array_get. now rewrite lookup_ge_None_2. Qed.

Lemma array_get_last {A} (a : list (option A)) (x : A) :
  array_get (a ++ [Some x])%list (length a) = Some x.
Proof. unfold array_get. now rewrite list_lookup_middle. Qed.

Lemma array_set_end {A} (a : list (option A)) (x : A) :
  array_set a (length a) x = (a ++ [Some x])%list.
Proof.
  unfold array_set. rewrite (proj2 (Nat.ltb_ge _ _)) by lia.
  now rewrite Nat.sub_diag.
Qed.

Lemma array_set_last {A} (a : list (option A)) (x y : A) :
  array_set (a ++ [Some x])%list (length a) y = (a ++ [Some y])%list.
Proof.
  unfold array_set. rewrite length_app. simpl.
  rewrite (proj2 (Nat.ltb_lt _ _)) by lia.
  rewrite insert_app_r_alt by lia. now rewrite Nat.sub_diag.
Qed.

Lemma loop_app (fn : UserFunction) (b : DurableEntityBindingInfo.t) (xs ys : list nat)
    (m : Machine) :
  loop clock functions fn b (xs ++ ys) m =
  match loop clock functions fn b xs m with
  | Normal m' => loop clock functions fn b ys m'
  | Thrown e => Thrown e
  end.
Proof.
  revert m. induction xs as [|x r IH]; intros m; simpl; [reflexivity|].
  destruct (iteration clock functions fn b x m); [apply IH | reflexivity].
Qed.

(** A rejected [dispatch] leaves the machine as it was. *)
Lemma dispatch_rejected_unchanged
    (currentRequest : RequestMessage.t) (startTime : Z) (entityFactory : unit -> Obj)
    (m : Machine) (e : Value) :
  fst (dispatch clock functions currentRequest startTime entityFactory m) = Rejected e ->
  snd (dispatch clock functions currentRequest startTime entityFactory m) = m.
Proof.
  unfold dispatch.
  repeat match goal with
         | |- context [match ?x with _ => _ end] => destruct x
         end; simpl; intros H; (reflexivity || discriminate H).
Qed.

(** Whenever the user function is [context => context.df.dispatch(factory)]
    and [dispatch] rejects, the request is recorded as a success. *)
Lemma rejected_dispatch_is_not_caught
    (isAsync : bool) (entityFactory : unit -> Obj) (d : DurableEntityContext.t) (i : nat)
    (startTime : Z) (m : Machine) (e : Value) :
  fst (dispatch clock functions (DurableEntityContext.currentRequest d)
         (DurableEntityContext.startTime d) entityFactory (with_df d m)) = Rejected e ->
  array_get (results_of m) i = None ->
  array_get
    (results_of (try_fn clock functions
                   (mkFn isAsync (fun _ => Call (Dispatch entityFactory) (fun _ => Done)))
                   d i startTime (with_df d m))) i
  = Some (OperationResult.mk false (clock (reads m) - startTime) None).
Proof.
  intros Hrej Hget. unfold try_fn, call_fn. simpl exec.
  rewrite (dispatch_rejected_unchanged _ _ _ _ e Hrej).
  unfold results_of in *. simpl batchState. rewrite Hget.
  unfold computeElapsedMilliseconds, new_Date, set_result, array_get, array_set. simpl.
  unfold array_get in Hget.
  assert (Hc : (if isAsync then Completed else Completed) = Completed) by now destruct isAsync.
  rewrite Hc. simpl.
  destruct (Nat.ltb_spec i (length (EntityState.results (batchState m)))) as [Hlt|Hge].
  - now rewrite list_lookup_insert_eq.
  - rewrite lookup_app_r by lia. rewrite lookup_app_r; rewrite length_replicate; [|lia].
    now rewrite Nat.sub_diag.
Qed.

End Facts.

(** In the explicit call shape a truthy input reaches the signal encoded
    twice: as the text of its text. *)
Lemma explicit_input_encoded_twice (entityId : EntityId.t) (name : string) (input : Value)
    (text : string) (m : Machine) :
  truthy input = true -> stringify input = Some text ->
  EntityState.signals (batchState (snd (signalEntity entityId (Explicit name input) m)))
  = (EntityState.signals (batchState m)
     ++ [Signal.mk entityId (VStr name) (Some (quote text))])%list.
Proof.
  intros Ht Hs. unfold signalEntity, send. rewrite Ht, Hs. simpl.
  pose proof (CodecFacts.stringify_nonempty input text Hs) as Hne. simpl in Hne.
  now rewrite Hne.
Qed.

End BatchFacts.

(* ===================================================================== *)
(** ** The properties                                                     *)
(* ===================================================================== *)

Import JS JSON Classes Entity Trace Pred ObjectFacts BatchFacts.

(** C1 fails on the code.  [return] pushes its result at the end of the
    results, while the loop of [handle] tests and writes the entry at the
    index of the request.  A user function that returns twice for a request
    so leaves two results for it: a batch of one ends with two results, and
    in a batch of two the second result of the first request takes the
    place of the second request, whose own results come third and fourth. *)
Theorem second_return_takes_next_slot :
  Counter.handed
    (handle Counter.clock Counter.functions Counter.returns_twice
       (Counter.binding [Counter.request "add" "[5]"]) (initial ∅))
  = Some (EntityState.mk true None
            [Some (OperationResult.mk false 10 (Some "1"));
             Some (OperationResult.mk false 20 (Some "2"))] []) /\
  Counter.handed
    (handle Counter.clock Counter.functions Counter.returns_input_twice
       (Counter.binding [Counter.request "add" "[5]"; Counter.request "add" "[7]"])
       (initial ∅))
  = Some (EntityState.mk true None
            [Some (OperationResult.mk false 10 (Some "[5]"));
             Some (OperationResult.mk false 20 (Some "[5]"));
             Some (OperationResult.mk false 10 (Some "[7]"));
             Some (OperationResult.mk false 20 (Some "[7]"))] []) /\
  ~ (forall (fn : UserFunction) (batch : list RequestMessage.t) (returnState : EntityState.t),
       Counter.handed
         (handle Counter.clock Counter.functions fn (Counter.binding batch) (initial ∅))
       = Some returnState ->
       length (EntityState.results returnState) = length batch).
Proof.
  split; [reflexivity|]. split; [reflexivity|].
  intros H.
  specialize (H Counter.returns_twice [Counter.request "add" "[5]"] _ eq_refl).
  discriminate H.
Qed.

(** C5. After [setState(v)] with [v] representable, [getState] returns [v]:
    at once or later in the batch, whatever comes in between as long as it
    does not write the state: any calls on the context other than
    [setState], [destructOnExit] and [dispatch] (which ends with a
    [setState]), and more generally any steps of the machine other than
    those two.  An initializer, if given, is not used. *)
Theorem setState_then_getState
    (clock : nat -> Z) (functions : FunRef -> Obj -> list Value -> MethodResult)
    (v : Value) (d : DurableEntityContext.t) (m : Machine)
    (initializer : option (unit -> Outcome Value)) :
  representable v = true ->
  let m1 := snd (perform clock functions (SetState v) (with_df d m)) in
  (forall calls : list ContextCall, forallb quiet calls = true ->
     fst (perform clock functions (GetState initializer)
            (perform_all clock functions calls m1)) = Normal v) /\
  (forall later : list Step, forallb (fun s => negb (writes_state s)) later = true ->
     fst (perform clock functions (GetState initializer) (run clock later m1)) = Normal v).
Proof.
  intros Hv m1.
  destruct (CodecFacts.parse_stringify v Hv) as (text & Hs & Ht & Hp).
  assert (H1 : state_of m1 = Some text) by (unfold m1, state_of; simpl; exact Hs).
  assert (Hd1 : is_Some (df m1)) by (eexists; reflexivity).
  assert (Hread : forall m2, state_of m2 = state_of m1 -> is_Some (df m2) ->
            fst (perform clock functions (GetState initializer) m2) = Normal v).
  { intros m2 Hstate [d' Hd]. unfold perform. rewrite Hd. simpl fst. unfold getState.
    unfold state_of in Hstate, H1. rewrite Hstate, H1, Ht. exact Hp. }
  split.
  - intros calls Hq.
    destruct (TraceFacts.perform_all_quiet clock functions calls m1 Hq Hd1) as [Hstate Hdf].
    now apply Hread.
  - intros later Hlater. apply Hread.
    + now apply TraceFacts.state_run.
    + now apply TraceFacts.df_run.
Qed.

Lemma setState_then_getState_witness :
  fst (perform Counter.clock Counter.functions (GetState (Some (fun _ => Normal VNull)))
         (perform_all Counter.clock Counter.functions
            [Return (VNum 5); GetInput;
             SignalEntity Counter.other (Explicit "add" (VArr [VNum 1]))]
            (snd (perform Counter.clock Counter.functions
                    (SetState (VObj [("counter", VNum 5); ("tags", VArr [VStr "a"; VNull])]))
                    (Counter.busy (Counter.request "add" "[5]"))))))
  = Normal (VObj [("counter", VNum 5); ("tags", VArr [VStr "a"; VNull])]).
Proof.
  apply (setState_then_getState Counter.clock Counter.functions
           (VObj [("counter", VNum 5); ("tags", VArr [VStr "a"; VNull])])
           (DurableEntityContext.mk "Counter" "one" Counter.self (Some "add") true
              (Counter.request "add" "[5]") 1000)
           (mkMachine (EntityState.mk false None [] []) None ∅ 1 [])
           (Some (fun _ => Normal VNull))).
  - reflexivity.
  - reflexivity.
Defined.

(** C8. [destructOnExit] sets [entityExists] to [false] and clears
    [entityState]; the results and the signals recorded so far stay as they
    are, and so does the rest of the machine.  Every later operation of the
    batch sees it: as long as no step writes the state, the state stays
    cleared and [getState] without an initializer returns no value; the flag
    is [false] until a [setState] or a [return]. *)
Theorem destructOnExit_clears_state_only
    (clock : nat -> Z) (functions : FunRef -> Obj -> list Value -> MethodResult)
    (d : DurableEntityContext.t) (m : Machine) :
  let m' := snd (perform clock functions DestructOnExit (with_df d m)) in
  exists_of m' = false /\ state_of m' = None /\
  EntityState.results (batchState m') = EntityState.results (batchState m) /\
  EntityState.signals (batchState m') = EntityState.signals (batchState m) /\
  heap m' = heap m /\ jobs m' = jobs m /\ reads m' = reads m /\
  forall later : list Step,
    exists_of (run clock later m') = exists_after later false /\
    (forallb (fun s => negb (writes_state s)) later = true ->
     state_of (run clock later m') = None /\
     fst (perform clock functions (GetState None) (run clock later m')) = Normal VUndefined).
Proof.
  simpl. repeat (split; [reflexivity|]).
  intros later. split.
  - apply (TraceFacts.exists_run clock later).
  - intros H.
    pose proof (TraceFacts.state_run clock later
                  (with_batch (destructOnExit (batchState m)) (with_df d m)) H) as Hs.
    split; [exact Hs|].
    pose proof (TraceFacts.df_run clock later
                  (with_batch (destructOnExit (batchState m)) (with_df d m))
                  ltac:(eexists; reflexivity)) as [d' Hd].
    unfold perform. rewrite Hd. simpl. unfold getState.
    unfold state_of in Hs. rewrite Hs. reflexivity.
Qed.

Lemma destructOnExit_clears_state_only_witness :
  let m' := snd (perform Counter.clock Counter.functions DestructOnExit
                   (with_df (DurableEntityContext.mk "Counter" "one" Counter.self
                               (Some "reset") false (Counter.request "reset" "[]") 1000)
                            (initial ∅))) in
  state_of (run Counter.clock [STick; SSend Counter.other (VStr "add") (VNum 1)] m') = None /\
  fst (perform Counter.clock Counter.functions (GetState None)
         (run Counter.clock [STick; SSend Counter.other (VStr "add") (VNum 1)] m'))
  = Normal VUndefined.
Proof.
  apply (destructOnExit_clears_state_only Counter.clock Counter.functions
           (DurableEntityContext.mk "Counter" "one" Counter.self
              (Some "reset") false (Counter.request "reset" "[]") 1000)
           (initial ∅)).
  reflexivity.
Defined.

(** C6. [getState] returns the decoded stored state when there is one (a
    text that is not empty); otherwise what the initializer returns, when
    one is given; otherwise no value.  In every case the machine is left as
    it was: state, flag, results and signals. *)
Theorem getState_reads_without_writing
    (clock : nat -> Z) (functions : FunRef -> Obj -> list Value -> MethodResult)
    (d : DurableEntityContext.t) (m : Machine)
    (initializer : option (unit -> Outcome Value)) :
  snd (perform clock functions (GetState initializer) (with_df d m)) = with_df d m /\
  fst (perform clock functions (GetState initializer) (with_df d m))
    = getState (batchState m) initializer /\
  (forall text, state_of m = Some text -> text <> EmptyString ->
     getState (batchState m) initializer = parse text) /\
  (truthy_text (state_of m) = false ->
     forall f, initializer = Some f -> getState (batchState m) initializer = f tt) /\
  (truthy_text (state_of m) = false -> initializer = None ->
     getState (batchState m) initializer = Normal VUndefined).
Proof.
  split; [reflexivity|]. split; [reflexivity|].
  unfold getState, state_of. destruct (EntityState.entityState (batchState m)) as [text|].
  - split; [|split].
    + intros t [= <-] Hne. simpl.
      destruct (String.eqb_spec text EmptyString); [contradiction | reflexivity].
    + intros H f ->. rewrite H. reflexivity.
    + intros H ->. rewrite H. reflexivity.
  - split; [|split].
    + discriminate.
    + intros _ f ->. reflexivity.
    + intros _ ->. reflexivity.
Qed.

Lemma getState_reads_without_writing_witness :
  getState (EntityState.mk true (Some "{}") [] []) (Some (fun _ => Normal (VNum 0)))
    = parse "{}" /\
  getState (EntityState.mk false None [] []) (Some (fun _ => Normal (VNum 0)))
    = Normal (VNum 0) /\
  getState (EntityState.mk false None [] []) None = Normal VUndefined.
Proof.
  pose proof (getState_reads_without_writing Counter.clock Counter.functions
                (DurableEntityContext.mk "Counter" "one" Counter.self
                   (Some "add") false (Counter.request "add" "[1]") 1000)
                (mkMachine (EntityState.mk true (Some "{}") [] []) None ∅ 0 [])
                (Some (fun _ => Normal (VNum 0)))) as (_ & _ & H1 & _).
  pose proof (getState_reads_without_writing Counter.clock Counter.functions
                (DurableEntityContext.mk "Counter" "one" Counter.self
                   (Some "add") false (Counter.request "add" "[1]") 1000)
                (initial ∅) (Some (fun _ => Normal (VNum 0)))) as (_ & _ & _ & H2 & _).
  pose proof (getState_reads_without_writing Counter.clock Counter.functions
                (DurableEntityContext.mk "Counter" "one" Counter.self
                   (Some "add") false (Counter.request "add" "[1]") 1000)
                (initial ∅) None) as (_ & _ & _ & _ & H3).
  split; [|split].
  - apply (H1 "{}"); [reflexivity | discriminate].
  - apply (H2 eq_refl (fun _ => Normal (VNum 0))). reflexivity.
  - apply H3; reflexivity.
Defined.

(** C7. The flag [entityExists] becomes [false] only by [destructOnExit]
    and [true] exactly by [setState] and [return], which is also how
    [dispatch] ends when it runs through; no other call on the context and
    nothing the loop does on its own changes it.  Over any sequence of steps
    the flag is what the last destroy, write or return made it, and every
    run of [handle], like every job that runs after it, is such a
    sequence. *)
Theorem exists_flag_transitions
    (clock : nat -> Z) (functions : FunRef -> Obj -> list Value -> MethodResult) :
  (forall (c : ContextCall) (d : DurableEntityContext.t) (m : Machine),
     let m' := snd (perform clock functions c (with_df d m)) in
     match c with
     | DestructOnExit => exists_of m' = false
     | SetState _ | Return _ => exists_of m' = true
     | GetState _ | GetInput | SignalEntity _ _ => exists_of m' = exists_of m
     | Dispatch entityFactory =>
         m' = with_df d m \/
         (exists j, m' = enqueue j (with_df d m)) \/
         (exists entity result,
            m' = return_ clock (DurableEntityContext.startTime d) (Val result)
                   (with_batch (setState (batchState m) (Ref entity)) (with_df d m))
            /\ exists_of m' = true)
     end) /\
  (forall (m : Machine) i r d j,
     exists_of (set_result i r m) = exists_of m /\ exists_of (with_df d m) = exists_of m /\
     exists_of (tick m) = exists_of m /\ exists_of (enqueue j m) = exists_of m) /\
  (forall (steps : list Step) (m : Machine),
     exists_of (run clock steps m) = exists_after steps (exists_of m)) /\
  (forall (c : ContextCall) (m : Machine),
     snd (perform clock functions c m) = run clock (call_steps functions c m) m) /\
  (forall (j : Job) (m : Machine),
     run_job clock functions j m = run clock (job_steps clock functions j m) m) /\
  (forall (fn : UserFunction) (b : DurableEntityBindingInfo.t) (m : Machine),
     let m0 := with_batch (EntityState.mk (DurableEntityBindingInfo.exists_ b)
                                          (DurableEntityBindingInfo.state b) [] []) m in
     match handle clock functions fn (Some b) m with
     | DoneWith returnState m' =>
         returnState = batchState m' /\
         m' = run clock (loop_steps clock functions fn b
                           (seq 0 (length (DurableEntityBindingInfo.batch b))) m0) m0
     | Fatal _ => True
     end).
Proof.
  split; [|split; [|split; [|split; [|split]]]].
  - intros c d m. cbv zeta. unfold perform. simpl df. cbv iota beta.
    destruct c as [i|v| |v| |id args|f]; try reflexivity.
    + destruct args as [arg2 arg3|entityObject action]; [reflexivity|].
      unfold signalEntity. simpl heap.
      destruct (createEntityProxy entityObject (heap m)) as [[proxy h]|]; [|reflexivity].
      destruct (h !! proxy) as [o|]; [|reflexivity].
      destruct (action o) as [sp|e]; [|reflexivity].
      destruct (get_member sp "operationName") as [n|e]; [|reflexivity].
      destruct (get_member sp "operationContent") as [inp|e]; reflexivity.
    + unfold dispatch.
      repeat match goal with
             | |- context [match ?x with _ => _ end] => destruct x
             end; simpl snd;
        first [ left; reflexivity
              | right; left; eexists; reflexivity
              | right; right; do 2 eexists; split; reflexivity ].
  - intros. repeat split.
  - apply TraceFacts.exists_run.
  - apply TraceFacts.perform_run.
  - apply TraceFacts.job_run.
  - intros fn b m m0. unfold handle. fold m0.
    destruct (loop clock functions fn b _ m0) as [m'|e] eqn:E; [|exact I].
    split; [reflexivity|]. now apply TraceFacts.loop_run.
Qed.

(** C9. A request without input (absent or empty) whose operation is a
    function member of the constructed object is rejected by [dispatch] when
    it comes to the call: the decoded input is [undefined], which cannot be
    spread.  The method is not run, and nothing is written or recorded. *)
Theorem dispatch_without_input_rejects
    (clock : nat -> Z) (functions : FunRef -> Obj -> list Value -> MethodResult)
    (currentRequest : RequestMessage.t) (startTime : Z) (entityFactory : unit -> Obj)
    (m : Machine) (operationName : string) (state : Value) (f : FunRef) :
  truthy_text (RequestMessage.input currentRequest) = false ->
  RequestMessage.name currentRequest = Some operationName ->
  operationName <> EmptyString ->
  getState (batchState m) (Some (fun _ => Normal (VObj []))) = Normal state ->
  get (Object_assign (entityFactory tt) state) operationName = Some (Fn f) ->
  getInput currentRequest = Normal VUndefined /\
  (exists e, spread VUndefined = Thrown (VError TypeError e)) /\
  exists e, dispatch clock functions currentRequest startTime entityFactory m
            = (Rejected (VError TypeError e), m).
Proof.
  intros Hin Hname Hne Hstate Hget.
  assert (Hi : getInput currentRequest = Normal VUndefined).
  { unfold getInput. destruct (RequestMessage.input currentRequest) as [text|]; [|reflexivity].
    now rewrite Hin. }
  split; [exact Hi|]. split; [eexists; reflexivity|].
  unfold dispatch. rewrite Hname. simpl truthy.
  destruct (String.eqb_spec operationName EmptyString) as [->|_]; [contradiction|].
  simpl negb. cbv iota. rewrite Hstate, Hget, Hi. simpl. eexists. reflexivity.
Qed.

Lemma dispatch_without_input_rejects_witness :
  exists e, dispatch Counter.clock Counter.functions
              (RequestMessage.mk (Some "reset") None) 1000 Counter.new_Counter
              (Counter.busy (RequestMessage.mk (Some "reset") None))
            = (Rejected (VError TypeError e),
               Counter.busy (RequestMessage.mk (Some "reset") None)).
Proof.
  apply (dispatch_without_input_rejects Counter.clock Counter.functions
           (RequestMessage.mk (Some "reset") None) 1000 Counter.new_Counter
           (Counter.busy (RequestMessage.mk (Some "reset") None))
           "reset" (VObj []) (UserFn 2)).
  - reflexivity.
  - reflexivity.
  - discriminate.
  - reflexivity.
  - reflexivity.
Defined.

(** C10. In the typed call shape the proxy is the caller's object itself:
    [createEntityProxy] returns the address it was given and writes on the
    object found there.  Every member that was a function, own or inherited
    from a prototype or from [Object.prototype], is afterwards an own
    property holding a stub; calling it runs no user function and gives back
    the record of the call.  The other members and the prototypes are as
    before.  [signalEntity] leaves the object that way, whatever the
    callback does. *)
Theorem createEntityProxy_mutates_in_place
    (h : gmap nat Obj) (entityObject : nat) (o : Obj) :
  h !! entityObject = Some o ->
  exists o' : Obj,
    createEntityProxy entityObject h = Some (entityObject, <[entityObject := o']> h) /\
    protos o' = protos o /\
    (forall p, is_function (get o p) = true ->
       get_own p (own o') = Some (Fn (Stub p)) /\ get o' p = Some (Fn (Stub p))) /\
    (forall p, is_function (get o p) = false -> get o' p = get o p) /\
    (forall functions p args, is_function (get o p) = true ->
       exists f, get o' p = Some (Fn f) /\
                 call functions f o' args
                 = MReturns o' (VObj [("operationName", VStr p);
                                      ("operationContent", VArr args)])) /\
    (forall entityId action m, heap m = h ->
       heap (snd (signalEntity entityId (Typed entityObject action) m))
       = <[entityObject := o']> h /\
       (forall e, action o' = Thrown e ->
          fst (signalEntity entityId (Typed entityObject action) m) = Thrown e)).
Proof.
  intros Hh. exists (fold_left stub_if_function (property_names o) o).
  destruct (stub_all (property_names o) o) as [Hprotos Hmembers].
  set (o' := fold_left stub_if_function (property_names o) o) in *.
  assert (Hfun : forall p, is_function (get o p) = true ->
            get_own p (own o') = Some (Fn (Stub p)) /\ get o' p = Some (Fn (Stub p))).
  { intros p Hp. destruct (Hmembers p) as [Hown _].
    rewrite Hp, (function_is_named o p Hp) in Hown. simpl in Hown.
    split; [exact Hown|]. unfold get. simpl. now rewrite Hown. }
  assert (Hcreate : createEntityProxy entityObject h
                    = Some (entityObject, <[entityObject := o']> h)).
  { unfold createEntityProxy. now rewrite Hh. }
  split; [exact Hcreate|]. split; [exact Hprotos|]. split; [exact Hfun|].
  split; [|split].
  - intros p Hp. destruct (Hmembers p) as [Hown _]. rewrite Hp in Hown. simpl in Hown.
    unfold get. simpl. now rewrite Hown, Hprotos.
  - intros functions p args Hp. exists (Stub p). split; [apply (Hfun p Hp) | reflexivity].
  - intros entityId action m Hm. unfold signalEntity. rewrite Hm, Hcreate.
    rewrite lookup_insert_eq.
    split.
    + destruct (action o') as [sp|e]; [|reflexivity].
      destruct (get_member sp "operationName") as [n|e]; [|reflexivity].
      destruct (get_member sp "operationContent") as [i|e]; reflexivity.
    + intros e ->. reflexivity.
Qed.

Lemma createEntityProxy_mutates_in_place_witness :
  exists o' : Obj,
    createEntityProxy 7 {[ 7%nat := Counter.new_Counter tt ]}
    = Some (7%nat, <[7%nat := o']> {[ 7%nat := Counter.new_Counter tt ]}) /\
    get o' "add" = Some (Fn (Stub "add")) /\
    get o' "toString" = Some (Fn (Stub "toString")) /\
    get o' "counter" = Some (Data (VNum 0)).
Proof.
  destruct (createEntityProxy_mutates_in_place
              {[ 7%nat := Counter.new_Counter tt ]} 7 (Counter.new_Counter tt)
              ltac:(apply lookup_singleton_eq)) as (o' & Hc & _ & Hf & Hd & _).
  exists o'. split; [exact Hc|]. split; [|split].
  - apply (Hf "add"). reflexivity.
  - apply (Hf "toString"). reflexivity.
  - rewrite (Hd "counter"); reflexivity.
Defined.

(** *** Where the code departs from the specification *)

(** A call of [dispatch] never throws to the user function: whatever goes
    wrong inside rejects the promise it returns. *)
Lemma dispatch_never_throws
    (clock : nat -> Z) (functions : FunRef -> Obj -> list Value -> MethodResult)
    (entityFactory : unit -> Obj) (d : DurableEntityContext.t) (m : Machine) :
  fst (perform clock functions (Dispatch entityFactory) (with_df d m)) = Normal VUndefined.
Proof. reflexivity. Qed.

(** C2. Requests for an operation that the entity does not have, and for
    no operation at all: [dispatch] rejects its promise with the error, but
    [handle] does not wait for the promise, so nothing reaches its [catch]
    and both requests are recorded as successes without a payload.  The
    batch goes on: the third request is served. *)
Theorem rejected_dispatch_recorded_as_success :
  fst (dispatch Counter.clock Counter.functions (Counter.request "multiply" "[5]") 1000
         Counter.new_Counter (Counter.busy (Counter.request "multiply" "[5]")))
  = Rejected (error ("Method " +:+ quote "multiply" +:+ " does not exist in entity")) /\
  fst (dispatch Counter.clock Counter.functions (Counter.request EmptyString "[5]") 1000
         Counter.new_Counter (Counter.busy (Counter.request EmptyString "[5]")))
  = Rejected (error "Undefined operation") /\
  Counter.handed
    (handle Counter.clock Counter.functions Counter.by_dispatch
       (Counter.binding [Counter.request "multiply" "[5]"; Counter.request EmptyString "[5]";
                         Counter.request "add" "[5]"])
       (initial ∅))
  = Some (EntityState.mk true (Some ("{" +:+ quote "counter" +:+ ":5}"))
            [Some (OperationResult.mk false 10 None);
             Some (OperationResult.mk false 10 None);
             Some (OperationResult.mk false 10 (Some "5"))]
            []).
Proof. repeat split. Qed.

(** C3. [signalEntity(other, "add", 5)]: the signal has the target and the
    name given, but its input is the text of the string ["5"], quotes
    included, not the text [5] of the number: the input is encoded once when
    [operationInput] is computed and once more when the signal is built.  The
    typed call shape, [signalEntity(other, counter, proxy => proxy.add(5))],
    encodes the arguments once. *)
Theorem signalEntity_encodes_twice :
  EntityState.signals
    (batchState (snd (signalEntity Counter.other (Explicit "add" (VNum 5))
                        (Counter.busy (Counter.request "add" "[5]")))))
  = [Signal.mk Counter.other (VStr "add") (stringify (VStr "5"))] /\
  stringify (VStr "5") = Some (quote "5") /\
  stringify (VNum 5) = Some "5" /\
  stringify (VStr "5") <> stringify (VNum 5) /\
  EntityState.signals
    (batchState
       (snd (signalEntity Counter.other
               (Typed 7%nat (Counter.call_add 5))
               (with_heap {[ 7%nat := Counter.new_Counter tt ]}
                          (Counter.busy (Counter.request "add" "[5]"))))))
  = [Signal.mk Counter.other (VStr "add") (stringify (VArr [VNum 5]))].
Proof. repeat split. discriminate. Qed.

(** C4. Two requests, the first for a method that returns a promise.
    [dispatch] suspends at its [await]; [handle] does not wait and goes on to
    the second request, which is served from the state as it was before the
    first, and [context.done] is reached with the first request recorded as
    a success without a payload while its continuation still waits.  When
    that continuation runs, it overwrites the state that the second request
    wrote and pushes a third result.  The same with a user function that is
    itself [async]: both requests are recorded before either continuation
    has run, and both continuations then find the context of the second
    request in [context.df]. *)
Theorem handle_does_not_await :
  let h := handle Counter.clock Counter.functions Counter.by_dispatch
             (Counter.binding [Counter.request "addLater" "[5]"; Counter.request "add" "[7]"])
             (initial ∅) in
  let h' := handle Counter.clock Counter.functions Counter.awaits_first
              (Counter.binding [Counter.request "first" "[1]"; Counter.request "second" "[2]"])
              (initial ∅) in
  Counter.handed h
  = Some (EntityState.mk true (Some ("{" +:+ quote "counter" +:+ ":7}"))
            [Some (OperationResult.mk false 10 None);
             Some (OperationResult.mk false 10 (Some "7"))]
            []) /\
  jobs (Counter.machine_of h)
  = [DispatchResume (mkObj [("counter", Data (VNum 5))] [Counter.prototype]) 1000
       (Normal (VNum 5))] /\
  batchState (run_jobs Counter.clock Counter.functions 1 (Counter.machine_of h))
  = EntityState.mk true (Some ("{" +:+ quote "counter" +:+ ":5}"))
      [Some (OperationResult.mk false 10 None);
       Some (OperationResult.mk false 10 (Some "7"));
       Some (OperationResult.mk false 40 (Some "5"))]
      [] /\
  Counter.handed h'
  = Some (EntityState.mk false None
            [Some (OperationResult.mk false 10 None);
             Some (OperationResult.mk false 10 None)]
            []) /\
  length (jobs (Counter.machine_of h')) = 2%nat /\
  batchState (run_jobs Counter.clock Counter.functions 2 (Counter.machine_of h'))
  = EntityState.mk true (Some "1")
      [Some (OperationResult.mk false 10 None);
       Some (OperationResult.mk false 10 None);
       Some (OperationResult.mk false 20 (Some "[2]"));
       Some (OperationResult.mk false 30 (Some "[2]"))]
      [].
Proof. repeat split. Qed.

(* ===================================================================== *)
(** ** Further facts about the loop                                       *)
(* ===================================================================== *)

Module LoopFacts.
Import JS JSON Classes Entity Trace Pred More BatchFacts.

Section Facts.
Variable clock : nat -> Z.
Variable functions : FunRef -> Obj -> list Value -> MethodResult.

Lemma array_get_set_same {A} (a : list (option A)) (i : nat) (x : A) :
  array_get (array_set a i x) i = Some x.
Proof.
  unfold array_get, array_set. destruct (Nat.ltb_spec i (length a)) as [Hlt|Hge].
  - now rewrite list_lookup_insert_eq.
  - rewrite lookup_app_r by lia. rewrite lookup_app_r; rewrite length_replicate; [|lia].
    now rewrite Nat.sub_diag.
Qed.

Lemma array_set_other {A} (a : list (option A)) (i k : nat) (x : A) :
  (k < length a)%nat -> k <> i -> array_set a i x !! k = a !! k.
Proof.
  intros Hk Hne. unfold array_set. destruct (Nat.ltb_spec i (length a)) as [Hlt|Hge].
  - now rewrite list_lookup_insert_ne.
  - now rewrite lookup_app_l.
Qed.

Lemma array_set_length {A} (a : list (option A)) (i : nat) (x : A) :
  (length a <= length (array_set a i x))%nat /\ (i < length (array_set a i x))%nat.
Proof.
  unfold array_set. destruct (Nat.ltb_spec i (length a)) as [Hlt|Hge].
  - rewrite length_insert. lia.
  - rewrite !length_app, length_replicate. simpl. lia.
Qed.

Lemma array_set_no_holes {A} (a : list (option A)) (i : nat) (x : A) :
  no_holes a -> (i <= length a)%nat -> no_holes (array_set a i x).
Proof.
  unfold no_holes, array_set. intros Ha Hi.
  destruct (Nat.ltb_spec i (length a)) as [Hlt|Hge].
  - apply Forall_insert; [exact Ha | eexists; reflexivity].
  - replace (i - length a)%nat with 0%nat by lia. simpl.
    apply Forall_app. split; [exact Ha|]. constructor; [eexists; reflexivity | constructor].
Qed.

(** The results after a run of user code are those before it, then what it
    pushed. *)
Lemma exec_extends (s : Script) (m : Machine) :
  exists added : list OperationResult.t,
    results_of (snd (exec clock functions s m)) = (results_of m ++ map Some added)%list.
Proof.
  revert m. induction s as [| e | k IH | c k IH]; intros m;
    try (exists []; simpl; now rewrite app_nil_r).
  simpl. pose proof (perform_results clock functions c m) as (a1 & H1 & _).
  destruct (perform clock functions c m) as [o m1]. simpl in H1.
  destruct (IH o m1) as (a2 & H2). exists (a1 ++ a2)%list.
  now rewrite H2, H1, map_app, app_assoc.
Qed.

Lemma no_holes_app_some {A} (a : list (option A)) (xs : list A) :
  no_holes a -> no_holes (a ++ map Some xs)%list.
Proof.
  intros Ha. apply Forall_app. split; [exact Ha|].
  apply Forall_forall. intros x Hx. apply list_elem_of_fmap in Hx as (y & -> & _).
  eexists; reflexivity.
Qed.

Lemma no_holes_get {A} (a : list (option A)) (i : nat) :
  no_holes a -> array_get a i = None -> (length a <= i)%nat.
Proof.
  intros Ha Hget. unfold array_get in Hget.
  destruct (a !! i) as [x|] eqn:E; [|now apply lookup_ge_None_1].
  unfold no_holes in Ha. rewrite Forall_lookup in Ha. destruct (Ha i x E) as [y ->].
  discriminate Hget.
Qed.

(** What the [try] statement does to the results: it keeps the entries
    below the end that are not at its index, leaves an entry at its index,
    and makes no hole. *)
Lemma try_fn_keeps (fn : UserFunction) (d : DurableEntityContext.t) (i : nat)
    (startTime : Z) (m : Machine) :
  let m' := try_fn clock functions fn d i startTime m in
  (length (results_of m) <= length (results_of m'))%nat /\
  (forall k, (k < length (results_of m))%nat -> k <> i ->
     results_of m' !! k = results_of m !! k) /\
  is_Some (array_get (results_of m') i) /\
  (no_holes (results_of m) -> (i <= length (results_of m))%nat ->
     no_holes (results_of m') /\ (i < length (results_of m'))%nat).
Proof.
  cbv zeta. unfold try_fn, call_fn.
  destruct (exec_extends (body fn d) m) as (added & Hadd).
  destruct (exec clock functions (body fn d) m) as [c m1]. simpl in Hadd.
  assert (Hkeep : forall k, (k < length (results_of m))%nat ->
            results_of m1 !! k = results_of m !! k).
  { intros k Hk. rewrite Hadd. now apply lookup_app_l. }
  assert (Hlen : (length (results_of m) <= length (results_of m1))%nat).
  { rewrite Hadd, length_app. lia. }
  assert (Hset : forall r,
    let m2 := set_result i r (tick m1) in
    (length (results_of m) <= length (results_of m2))%nat /\
    (forall k, (k < length (results_of m))%nat -> k <> i ->
       results_of m2 !! k = results_of m !! k) /\
    is_Some (array_get (results_of m2) i) /\
    (no_holes (results_of m) -> (i <= length (results_of m))%nat ->
       no_holes (results_of m2) /\ (i < length (results_of m2))%nat)).
  { intros r. cbv zeta. unfold results_of, set_result. simpl.
    fold (results_of m1). fold (results_of m).
    pose proof (array_set_length (results_of m1) i r) as [L1 L2].
    split; [lia|]. split.
    - intros k Hk Hne. rewrite array_set_other by (lia || assumption). now apply Hkeep.
    - split; [rewrite array_get_set_same; eexists; reflexivity|].
      intros Hno Hi. split; [|exact L2].
      apply array_set_no_holes; [|lia]. rewrite Hadd. now apply no_holes_app_some. }
  assert (Hsame :
    array_get (results_of m1) i <> None ->
    (length (results_of m) <= length (results_of m1))%nat /\
    (forall k, (k < length (results_of m))%nat -> k <> i ->
       results_of m1 !! k = results_of m !! k) /\
    is_Some (array_get (results_of m1) i) /\
    (no_holes (results_of m) -> (i <= length (results_of m))%nat ->
       no_holes (results_of m1) /\ (i < length (results_of m1))%nat)).
  { intros Hget. split; [exact Hlen|]. split; [intros k Hk _; now apply Hkeep|].
    split; [destruct (array_get (results_of m1) i); [eexists; reflexivity | congruence]|].
    intros Hno Hi. split; [rewrite Hadd; now apply no_holes_app_some|].
    unfold array_get in Hget. destruct (results_of m1 !! i) eqn:E; [|contradiction].
    now apply lookup_lt_Some in E. }
  destruct (if async fn then Completed else c) as [|e].
  - fold (results_of m1).
    remember (array_get (results_of m1) i) as g eqn:E in |- *.
    destruct g as [t|].
    + apply Hsame. congruence.
    + unfold computeElapsedMilliseconds, new_Date. apply Hset.
  - unfold computeElapsedMilliseconds, new_Date. apply Hset.
Qed.

Lemma iteration_total (fn : UserFunction) (b : DurableEntityBindingInfo.t) (i : nat)
    (m : Machine) :
  (i < length (DurableEntityBindingInfo.batch b))%nat ->
  exists d, iteration clock functions fn b i m
            = Normal (try_fn clock functions fn d i (clock (reads m)) (with_df d (tick m))).
Proof.
  intros Hi. unfold iteration, new_Date, getCurrentDurableEntityContext.
  destruct (lookup_lt_is_Some_2 _ _ Hi) as [request ->]. eexists. reflexivity.
Qed.

(** The loop over the requests [k .. k+n-1] comes to its end, with a result
    at every index below [k+n]. *)
Lemma loop_fills (fn : UserFunction) (b : DurableEntityBindingInfo.t) (n k : nat)
    (m : Machine) :
  no_holes (results_of m) -> (k <= length (results_of m))%nat ->
  (k + n <= length (DurableEntityBindingInfo.batch b))%nat ->
  exists m', loop clock functions fn b (seq k n) m = Normal m' /\
             no_holes (results_of m') /\ (k + n <= length (results_of m'))%nat.
Proof.
  revert k m. induction n as [|n IH]; intros k m Hno Hk Hn.
  - exists m. simpl. repeat split; [assumption | lia].
  - destruct (iteration_total fn b k m ltac:(lia)) as [d Hit].
    pose proof (try_fn_keeps fn d k (clock (reads m)) (with_df d (tick m)))
      as (_ & _ & _ & Hfill).
    destruct (Hfill Hno Hk) as [Hno' Hlen'].
    destruct (IH (S k) _ Hno' ltac:(lia) ltac:(lia)) as (m' & Hloop & Hno'' & Hlen'').
    exists m'. simpl. rewrite Hit. repeat split; [assumption | assumption | lia].
Qed.

End Facts.
End LoopFacts.

Import JS JSON Classes Entity Trace Pred More BatchFacts LoopFacts.

(** X1. [handle] fails as a whole when there is no binding.  With a
    binding, whenever it reaches [context.done], whatever the user function
    did (return several times, throw, suspend), what it hands over is the
    state of the batch at that moment, and every request has an entry in the
    results: there are at least as many as requests and no index is left
    empty. *)
Theorem handle_always_answers
    (clock : nat -> Z) (functions : FunRef -> Obj -> list Value -> MethodResult)
    (fn : UserFunction) (m : Machine) :
  (exists e, handle clock functions fn None m = Fatal e) /\
  forall b : DurableEntityBindingInfo.t,
    match handle clock functions fn (Some b) m with
    | DoneWith returnState m' =>
        returnState = batchState m' /\
        (length (DurableEntityBindingInfo.batch b)
         <= length (EntityState.results returnState))%nat /\
        forall i, (i < length (EntityState.results returnState))%nat ->
          exists r, EntityState.results returnState !! i = Some (Some r)
    | Fatal _ => True
    end.
Proof.
  split; [eexists; reflexivity|]. intros b.
  set (m0 := with_batch (EntityState.mk (DurableEntityBindingInfo.exists_ b)
                                        (DurableEntityBindingInfo.state b) [] []) m).
  destruct (loop_fills clock functions fn b (length (DurableEntityBindingInfo.batch b)) 0 m0)
    as (m' & Hloop & Hno & Hlen); [constructor | simpl; lia | lia |].
  unfold handle. fold m0. rewrite Hloop.
  split; [reflexivity|]. split; [exact Hlen|].
  intros i Hi. destruct (lookup_lt_is_Some_2 _ _ Hi) as [x Hx].
  unfold no_holes in Hno. rewrite Forall_lookup in Hno.
  destruct (Hno i x Hx) as [r ->]. eauto.
Qed.

(** X2. A turn of the loop writes at the index of its request and past the
    end of the results, nowhere else: the entries recorded for other
    requests stay as they are. *)
Theorem iteration_keeps_other_results
    (clock : nat -> Z) (functions : FunRef -> Obj -> list Value -> MethodResult)
    (fn : UserFunction) (b : DurableEntityBindingInfo.t) (i : nat) (m m' : Machine) :
  iteration clock functions fn b i m = Normal m' ->
  (length (results_of m) <= length (results_of m'))%nat /\
  forall k, (k < length (results_of m))%nat -> k <> i ->
    results_of m' !! k = results_of m !! k.
Proof.
  unfold iteration, new_Date.
  destruct (getCurrentDurableEntityContext b _ i _) as [d|e]; [|discriminate].
  intros [= <-].
  pose proof (try_fn_keeps clock functions fn d i (clock (reads m)) (with_df d (tick m)))
    as (Hlen & Hkeep & _).
  split; [exact Hlen | exact Hkeep].
Qed.

Lemma iteration_keeps_other_results_witness :
  match iteration Counter.clock Counter.functions Counter.returns_twice
          (DurableEntityBindingInfo.mk Counter.self false None
             [Counter.request "add" "[1]"; Counter.request "add" "[2]"]) 1
          (with_batch (EntityState.mk true None
                         [Some (OperationResult.mk false 10 (Some "1"))] [])
                      (initial ∅)) with
  | Normal m' =>
      results_of m' !! 0%nat = Some (Some (OperationResult.mk false 10 (Some "1")))
  | Thrown _ => False
  end.
Proof.
  destruct (iteration Counter.clock Counter.functions Counter.returns_twice
              (DurableEntityBindingInfo.mk Counter.self false None
                 [Counter.request "add" "[1]"; Counter.request "add" "[2]"]) 1
              (with_batch (EntityState.mk true None
                             [Some (OperationResult.mk false 10 (Some "1"))] [])
                          (initial ∅))) as [m'|e] eqn:E.
  - destruct (iteration_keeps_other_results Counter.clock Counter.functions
                Counter.returns_twice _ _ _ _ E) as [_ Hkeep].
    rewrite (Hkeep 0%nat); [reflexivity | simpl; lia | lia].
  - vm_compute in E. discriminate E.
Defined.

(* ===================================================================== *)
(** ** Further facts about one turn of the loop                           *)
(* ===================================================================== *)

Module TurnFacts.
Import JS JSON Classes Entity Trace Pred More BatchFacts LoopFacts.

Section Facts.
Variable clock : nat -> Z.
Variable functions : FunRef -> Obj -> list Value -> MethodResult.

Lemma returned_app (a b : list Step) : returned (a ++ b) = (returned a ++ returned b)%list.
Proof.
  induction a as [|s r IH]; [reflexivity|]. destruct s; simpl; now rewrite ?IH.
Qed.

Lemma sent_app (a b : list Step) : sent (a ++ b) = (sent a ++ sent b)%list.
Proof.
  induction a as [|s r IH]; [reflexivity|]. destruct s; simpl; now rewrite ?IH.
Qed.

(** The steps of a call on the context are none of the loop's own. *)
Lemma call_steps_own (c : ContextCall) (m : Machine) :
  forallb (fun s => negb (sets_result s)) (call_steps functions c m) = true.
Proof.
  unfold call_steps. destruct (df m) as [d|]; [|reflexivity].
  destruct c as [i|v| |v| |id args|f]; try reflexivity.
  - destruct args as [arg2 arg3|entityObject action]; [reflexivity|].
    destruct (createEntityProxy entityObject (heap m)) as [[proxy h]|]; [|reflexivity].
    simpl. destruct (h !! proxy) as [o|]; [|reflexivity].
    destruct (action o) as [sp|e]; [|reflexivity].
    destruct (get_member sp "operationName") as [n|e]; [|reflexivity].
    destruct (get_member sp "operationContent") as [inp|e]; reflexivity.
  - unfold dispatch_steps.
    repeat match goal with
           | |- context [match ?x with _ => _ end] => destruct x
           end; reflexivity.
Qed.

Lemma exec_steps_own (s : Script) (m : Machine) :
  forallb (fun s => negb (sets_result s)) (exec_steps clock functions s m) = true.
Proof.
  revert m. induction s as [| e | k IH | c k IH]; intros m; try reflexivity.
  simpl. destruct (perform clock functions c m) as [o m1].
  rewrite forallb_app, call_steps_own. apply IH.
Qed.

(** Steps other than the loop's own push the values they return, as
    successes, and touch no other result. *)
Lemma run_returned (steps : list Step) (m : Machine) :
  forallb (fun s => negb (sets_result s)) steps = true ->
  exists rs : list OperationResult.t,
    results_of (run clock steps m) = (results_of m ++ map Some rs)%list /\
    map OperationResult.result rs = returned steps /\
    Forall (fun r => OperationResult.isError r = false) rs.
Proof.
  revert m. induction steps as [|s r IH]; intros m H.
  - exists []. simpl. now rewrite app_nil_r.
  - simpl in H. apply andb_true_iff in H as [Hs Hr].
    rewrite TraceFacts.run_cons.
    destruct (IH (step clock s m) Hr) as (rs & Hres & Hmap & Hok).
    destruct s; try discriminate Hs;
      try (exists rs; split; [exact Hres | split; [exact Hmap | exact Hok]]).
    eexists (_ :: rs). split; [|split].
    + rewrite Hres. unfold step, return_, results_of. simpl.
      unfold array_push. rewrite <- app_assoc. reflexivity.
    + simpl. now rewrite Hmap.
    + constructor; [reflexivity | exact Hok].
Qed.

Lemma state_set_result i r (m : Machine) :
  batchState (set_result i r (tick m))
  = with_results (array_set (results_of m) i r) (batchState m).
Proof. reflexivity. Qed.

End Facts.
End TurnFacts.

Import TurnFacts.

(** X3. What a turn of the loop leaves at the index of its request, when
    it starts with as many results as requests served.  If the user
    function throws to [handle], a failure whose payload is the text of what
    was thrown, even if a value had been returned before.  Otherwise the
    first value returned during the turn, as a success; or, when none was
    returned, a success without payload.  State, flag and signals are left
    as the user code made them: nothing is undone when it fails. *)
Theorem turn_records_outcome
    (clock : nat -> Z) (functions : FunRef -> Obj -> list Value -> MethodResult)
    (fn : UserFunction) (d : DurableEntityContext.t) (i : nat) (startTime : Z)
    (m : Machine) :
  length (results_of m) = i ->
  let m1 := snd (exec clock functions (body fn d) m) in
  let m' := try_fn clock functions fn d i startTime m in
  (state_of m' = state_of m1 /\ exists_of m' = exists_of m1 /\
   signals_of m' = signals_of m1 /\ heap m' = heap m1 /\ jobs m' = jobs m1) /\
  exists r : OperationResult.t,
    array_get (results_of m') i = Some r /\
    match fst (call_fn clock functions fn d m) with
    | Raised e =>
        OperationResult.isError r = true /\ OperationResult.result r = stringify e /\
        OperationResult.duration r = clock (reads m1) - startTime
    | Completed =>
        OperationResult.isError r = false /\
        match returned (exec_steps clock functions (body fn d) m) with
        | payload :: _ => OperationResult.result r = payload
        | [] => OperationResult.result r = None /\
                OperationResult.duration r = clock (reads m1) - startTime
        end
    end.
Proof.
  intros Hlen. cbv zeta. unfold try_fn, call_fn.
  pose proof (TraceFacts.exec_run clock functions (body fn d) m) as Hrun.
  destruct (run_returned clock (exec_steps clock functions (body fn d) m) m
              (exec_steps_own clock functions (body fn d) m)) as (rs & Hres & Hmap & Hok).
  rewrite <- Hrun in Hres.
  destruct (exec clock functions (body fn d) m) as [c m1]. simpl in Hres. simpl fst. simpl snd.
  destruct (if async fn then Completed else c) as [|e].
  - fold (results_of m1). rewrite <- Hmap.
    destruct rs as [|x rs'].
    + simpl in Hres. rewrite app_nil_r in Hres.
      rewrite Hres, <- Hlen, array_get_end.
      unfold computeElapsedMilliseconds, new_Date.
      split; [repeat split|].
      eexists. split; [apply array_get_set_same|]. simpl. auto.
    + assert (Hget : array_get (results_of m1) i = Some x).
      { rewrite Hres, <- Hlen. unfold array_get. simpl.
        now rewrite list_lookup_middle. }
      rewrite Hget. split; [repeat split|].
      exists x. split; [exact Hget|]. simpl. split; [|reflexivity].
      now apply Forall_cons in Hok as [Hx _].
  - unfold computeElapsedMilliseconds, new_Date.
    split; [repeat split|].
    eexists. split; [apply array_get_set_same|]. simpl. auto.
Qed.

Lemma turn_records_outcome_witness :
  exists r : OperationResult.t,
    array_get
      (results_of
         (try_fn Counter.clock Counter.functions
            (mkFn false (fun _ => Call (SetState (VNum 1)) (fun _ =>
                                  Call (Return (VNum 2)) (fun _ =>
                                  Throw (error "late")))))
            (DurableEntityContext.mk "Counter" "one" Counter.self (Some "add") true
               (Counter.request "add" "[5]") 1000)
            0 1000 (Counter.busy (Counter.request "add" "[5]")))) 0
    = Some r /\
    OperationResult.isError r = true /\ OperationResult.result r = Some "{}".
Proof.
  destruct (turn_records_outcome Counter.clock Counter.functions
              (mkFn false (fun _ => Call (SetState (VNum 1)) (fun _ =>
                                    Call (Return (VNum 2)) (fun _ =>
                                    Throw (error "late")))))
              (DurableEntityContext.mk "Counter" "one" Counter.self (Some "add") true
                 (Counter.request "add" "[5]") 1000)
              0 1000 (Counter.busy (Counter.request "add" "[5]")) eq_refl)
    as (_ & r & Hget & Hr).
  exists r. split; [exact Hget|]. simpl in Hr. destruct Hr as (H1 & H2 & _). auto.
Defined.

(* ===================================================================== *)
(** ** Further facts about signals and inputs                             *)
(* ===================================================================== *)

Module SignalFacts.
Import JS JSON Classes Entity Trace Pred More TurnFacts.

Section Facts.
Variable clock : nat -> Z.
Variable functions : FunRef -> Obj -> list Value -> MethodResult.

Lemma signals_step (s : Step) (m : Machine) :
  signals_of (step clock s m) = (signals_of m ++ sent [s])%list.
Proof. destruct s; simpl; unfold signals_of; simpl; now rewrite ?app_nil_r. Qed.

Lemma signals_run (steps : list Step) (m : Machine) :
  signals_of (run clock steps m) = (signals_of m ++ sent steps)%list.
Proof.
  revert m. induction steps as [|s r IH]; intros m; [simpl; now rewrite app_nil_r|].
  rewrite TraceFacts.run_cons, IH, signals_step.
  change (s :: r) with ([s] ++ r)%list. now rewrite sent_app, app_assoc.
Qed.

(** A call on the context sends at most one signal. *)
Lemma call_sends_one (c : ContextCall) (m : Machine) :
  (length (sent (call_steps functions c m)) <= 1)%nat.
Proof.
  unfold call_steps. destruct (df m) as [d|]; [|simpl; lia].
  destruct c as [i|v| |v| |id args|f]; try (simpl; lia).
  - destruct args as [arg2 arg3|entityObject action]; [simpl; lia|].
    destruct (createEntityProxy entityObject (heap m)) as [[proxy h]|]; [|simpl; lia].
    simpl. destruct (h !! proxy) as [o|]; [|simpl; lia].
    destruct (action o) as [sp|e]; [|simpl; lia].
    destruct (get_member sp "operationName") as [n|e]; [|simpl; lia].
    destruct (get_member sp "operationContent") as [inp|e]; simpl; lia.
  - unfold dispatch_steps.
    repeat match goal with
           | |- context [match ?x with _ => _ end] => destruct x
           end; simpl; lia.
Qed.

End Facts.
End SignalFacts.

Import SignalFacts.

(** X4. Signals are only ever appended: a call on the context adds at most
    one, at the end, and nothing removes or reorders those already there.
    What [handle] hands over is the signals of all the requests in the
    order in which they were sent, and a job that runs later adds its own
    after them. *)
Theorem signals_accumulate_in_order
    (clock : nat -> Z) (functions : FunRef -> Obj -> list Value -> MethodResult) :
  (forall (c : ContextCall) (m : Machine),
     signals_of (snd (perform clock functions c m))
     = (signals_of m ++ sent (call_steps functions c m))%list /\
     (length (sent (call_steps functions c m)) <= 1)%nat) /\
  (forall (entityId : EntityId.t) (name : string) (input : Value)
          (d : DurableEntityContext.t) (m : Machine),
     sent (call_steps functions (SignalEntity entityId (Explicit name input)) (with_df d m))
     <> []) /\
  (forall (s : Script) (m : Machine),
     signals_of (snd (exec clock functions s m))
     = (signals_of m ++ sent (exec_steps clock functions s m))%list) /\
  (forall (steps : list Step) (m : Machine),
     signals_of (run clock steps m) = (signals_of m ++ sent steps)%list) /\
  (forall (j : Job) (m : Machine),
     signals_of (run_job clock functions j m)
     = (signals_of m ++ sent (job_steps clock functions j m))%list) /\
  (forall (fn : UserFunction) (b : DurableEntityBindingInfo.t) (m : Machine),
     let m0 := with_batch (EntityState.mk (DurableEntityBindingInfo.exists_ b)
                                          (DurableEntityBindingInfo.state b) [] []) m in
     match handle clock functions fn (Some b) m with
     | DoneWith returnState _ =>
         EntityState.signals returnState
         = sent (loop_steps clock functions fn b
                   (seq 0 (length (DurableEntityBindingInfo.batch b))) m0)
     | Fatal _ => True
     end).
Proof.
  split; [|split; [|split; [|split; [|split]]]].
  - intros c m. split; [|apply call_sends_one].
    rewrite TraceFacts.perform_run. apply signals_run.
  - intros. simpl. discriminate.
  - intros s m. rewrite TraceFacts.exec_run. apply signals_run.
  - apply signals_run.
  - intros j m. rewrite TraceFacts.job_run. apply signals_run.
  - intros fn b m m0. unfold handle. fold m0.
    destruct (loop clock functions fn b _ m0) as [m'|e] eqn:E; [|exact I].
    rewrite (TraceFacts.loop_run _ _ _ _ _ _ _ E) at 1.
    fold (signals_of (run clock
           (loop_steps clock functions fn b
              (seq 0 (length (DurableEntityBindingInfo.batch b))) m0) m0)).
    now rewrite signals_run.
Qed.

(** X5. [getInput] gives [undefined] for a request without input, absent
    or empty, without decoding anything; and for a request whose input is
    the text that [JSON.stringify] gives for a representable value whose
    numbers are safe integers, that value. *)
Theorem getInput_decodes
    (name : option string) (input : option string) (v : Value) :
  (truthy_text input = false ->
     getInput (RequestMessage.mk name input) = Normal VUndefined) /\
  (representable v = true -> safe_integers v = true ->
     getInput (RequestMessage.mk name (stringify v)) = Normal v).
Proof.
  split.
  - intros H. unfold getInput. cbn [RequestMessage.input].
    destruct input as [text|]; [|reflexivity]. now rewrite H.
  - intros H _. destruct (CodecFacts.parse_stringify v H) as (text & Hs & Ht & Hp).
    unfold getInput. cbn [RequestMessage.input]. now rewrite Hs, Ht.
Qed.

Lemma getInput_decodes_witness :
  getInput (RequestMessage.mk (Some "add") (Some EmptyString)) = Normal VUndefined /\
  getInput (RequestMessage.mk (Some "add") (stringify (VArr [VNum 5; VStr "x"])))
  = Normal (VArr [VNum 5; VStr "x"]).
Proof.
  split.
  - apply (getInput_decodes (Some "add") (Some EmptyString) VNull). reflexivity.
  - apply (getInput_decodes (Some "add") None (VArr [VNum 5; VStr "x"])); reflexivity.
Defined.

(* ===================================================================== *)
(** ** Further facts about [dispatch]                                     *)
(* ===================================================================== *)

Module DispatchFacts.
Import JS JSON Classes Entity Trace Pred More ObjectFacts.

Lemma assign_absent (fs : list (string * Value)) (l : list (string * Slot)) (p : string) :
  ~ In p (map fst fs) -> get_own p (assign_fields fs l) = get_own p l.
Proof.
  revert l. induction fs as [|[k v] r IH]; intros l Hp; [reflexivity|].
  simpl in *. unfold assign_fields in *. simpl. rewrite IH by tauto.
  rewrite get_own_set_own. destruct (String.eqb_spec p k) as [->|_]; [tauto | reflexivity].
Qed.

Lemma assign_present (fs : list (string * Value)) (l : list (string * Slot)) (p : string) :
  In p (map fst fs) \/ (exists v, get_own p l = Some (Data v)) ->
  exists v, get_own p (assign_fields fs l) = Some (Data v).
Proof.
  revert l. induction fs as [|[k v] r IH]; intros l H.
  - destruct H as [[]|H]. exact H.
  - unfold assign_fields in *. simpl. apply IH. simpl in H.
    destruct (in_dec String.string_dec p (map fst r)) as [Hin|Hnin]; [now left|].
    right. rewrite get_own_set_own.
    destruct (String.eqb_spec p k) as [->|Hne]; [eauto|].
    destruct H as [[Heq|Hin]|H]; [congruence | contradiction | exact H].
Qed.

Lemma distinct_cons (k : string) (ks : list string) :
  distinct (k :: ks) = true -> ~ In k ks /\ distinct ks = true.
Proof.
  simpl. intros H. apply andb_true_iff in H as [Hk Hd]. split; [|exact Hd].
  apply negb_true_iff in Hk. intros Hin.
  assert (existsb (String.eqb k) ks = true); [|congruence].
  apply existsb_exists. exists k. split; [exact Hin | apply String.eqb_refl].
Qed.

Lemma assign_loads (fs : list (string * Value)) (l : list (string * Slot))
    (k : string) (v : Value) :
  distinct (map fst fs) = true -> In (k, v) fs ->
  get_own k (assign_fields fs l) = Some (Data v).
Proof.
  revert l. induction fs as [|[k' v'] r IH]; intros l Hd Hin; [destruct Hin|].
  simpl in Hd. apply distinct_cons in Hd as [Hk Hd].
  unfold assign_fields in *. simpl. destruct Hin as [[= -> ->]|Hin].
  - fold (assign_fields r (set_own k (Data v) l)).
    rewrite assign_absent by exact Hk. rewrite get_own_set_own.
    now rewrite String.eqb_refl.
  - now apply IH.
Qed.

Lemma get_assign (o : Obj) (fs : list (string * Value)) (p : string) :
  get (Object_assign o (VObj fs)) p =
  match get_own p (assign_fields fs (own o)) with
  | Some s => Some s
  | None => get_chain p (protos o)
  end.
Proof. reflexivity. Qed.

End DispatchFacts.

Import DispatchFacts.

(** X6. A field of the stored state hides a method of the same name: the
    state is laid over the new object before the operation is looked up, so
    a request for that operation is rejected as if the method did not
    exist, and nothing is written. *)
Theorem state_field_hides_method
    (clock : nat -> Z) (functions : FunRef -> Obj -> list Value -> MethodResult)
    (currentRequest : RequestMessage.t) (startTime : Z) (entityFactory : unit -> Obj)
    (m : Machine) (operationName : string) (fields : list (string * Value)) :
  RequestMessage.name currentRequest = Some operationName ->
  operationName <> EmptyString ->
  getState (batchState m) (Some (fun _ => Normal (VObj []))) = Normal (VObj fields) ->
  In operationName (map fst fields) ->
  dispatch clock functions currentRequest startTime entityFactory m
  = (Rejected (no_method operationName), m).
Proof.
  intros Hname Hne Hstate Hin. unfold dispatch. rewrite Hname. simpl truthy.
  destruct (String.eqb_spec operationName EmptyString) as [->|_]; [contradiction|].
  simpl negb. cbv iota. rewrite Hstate. cbv zeta. rewrite get_assign.
  destruct (assign_present fields (own (entityFactory tt)) operationName (or_introl Hin))
    as [v ->].
  reflexivity.
Qed.

Lemma state_field_hides_method_witness :
  dispatch Counter.clock Counter.functions (Counter.request "add" "[5]") 1000
    Counter.new_Counter
    (with_batch (EntityState.mk true (stringify (VObj [("add", VNum 1)])) [] [])
                (Counter.busy (Counter.request "add" "[5]")))
  = (Rejected (no_method "add"),
     with_batch (EntityState.mk true (stringify (VObj [("add", VNum 1)])) [] [])
                (Counter.busy (Counter.request "add" "[5]"))).
Proof.
  apply (state_field_hides_method Counter.clock Counter.functions
           (Counter.request "add" "[5]") 1000 Counter.new_Counter
           (with_batch (EntityState.mk true (stringify (VObj [("add", VNum 1)])) [] [])
                       (Counter.busy (Counter.request "add" "[5]")))
           "add" [("add", VNum 1)]).
  - reflexivity.
  - discriminate.
  - reflexivity.
  - simpl. auto.
Defined.

(** X7. What [dispatch] saves is what the next [dispatch] loads, for an
    object without a [toJSON] method whose own data is representable, with
    safe integers for numbers and no member named [__proto__].  The state
    written from it is its own data, the methods left out; [getState] reads
    that data back; and laid over a new object from the factory it restores
    every saved field, keeping the members of the new object under every
    other name. *)
Theorem saved_entity_reloads
    (returnState : EntityState.t) (entity : Obj) (entityFactory : unit -> Obj) :
  representable (VObj (data_fields (own entity))) = true ->
  safe_integers (VObj (data_fields (own entity))) = true ->
  mem "__proto__" (map fst (data_fields (own entity))) = false ->
  is_function (get entity "toJSON") = false ->
  let saved := VObj (data_fields (own entity)) in
  EntityState.entityState (setState returnState (Ref entity)) = stringify saved /\
  getState (setState returnState (Ref entity)) (Some (fun _ => Normal (VObj [])))
  = Normal saved /\
  (forall k v, In (k, v) (data_fields (own entity)) ->
     get (Object_assign (entityFactory tt) saved) k = Some (Data v)) /\
  (forall p, ~ In p (map fst (data_fields (own entity))) ->
     get (Object_assign (entityFactory tt) saved) p = get (entityFactory tt) p).
Proof.
  intros Hrep _ _ _ saved. split; [reflexivity|].
  destruct (CodecFacts.parse_stringify saved Hrep) as (text & Hs & Ht & Hp).
  split.
  - unfold getState, setState. simpl EntityState.entityState.
    unfold stringify_any, stringify_object. fold saved. now rewrite Hs, Ht.
  - simpl in Hrep. apply andb_true_iff in Hrep as [Hrep _].
    apply andb_true_iff in Hrep as [Hd _].
    split.
    + intros k v Hin. unfold saved. rewrite get_assign.
      now rewrite (assign_loads _ _ k v Hd Hin).
    + intros p Hp'. unfold saved. rewrite get_assign.
      rewrite assign_absent by exact Hp'. reflexivity.
Qed.

Lemma saved_entity_reloads_witness :
  getState (setState (EntityState.mk false None [] [])
              (Ref (mkObj [("counter", Data (VNum 5)); ("add", Fn (UserFn 1))]
                          [Counter.prototype])))
           (Some (fun _ => Normal (VObj [])))
  = Normal (VObj [("counter", VNum 5)]) /\
  get (Object_assign (Counter.new_Counter tt) (VObj [("counter", VNum 5)])) "counter"
  = Some (Data (VNum 5)).
Proof.
  destruct (saved_entity_reloads (EntityState.mk false None [] [])
              (mkObj [("counter", Data (VNum 5)); ("add", Fn (UserFn 1))]
                     [Counter.prototype])
              Counter.new_Counter eq_refl eq_refl eq_refl eq_refl) as (_ & Hget & Hload & _).
  split; [exact Hget|]. apply Hload. simpl. auto.
Defined.

(** X8. [dispatch] calls the method only with an input that decodes to an
    array or a string.  When the input decodes to anything else (a number,
    a boolean, [null], an object), the call is not made: [dispatch] rejects
    with a [TypeError] and writes nothing. *)
Theorem dispatch_needs_iterable_input
    (clock : nat -> Z) (functions : FunRef -> Obj -> list Value -> MethodResult)
    (currentRequest : RequestMessage.t) (startTime : Z) (entityFactory : unit -> Obj)
    (m : Machine) (operationName : string) (state input : Value) (f : FunRef) :
  RequestMessage.name currentRequest = Some operationName ->
  operationName <> EmptyString ->
  getState (batchState m) (Some (fun _ => Normal (VObj []))) = Normal state ->
  get (Object_assign (entityFactory tt) state) operationName = Some (Fn f) ->
  getInput currentRequest = Normal input ->
  not_iterable input = true ->
  exists message,
    dispatch clock functions currentRequest startTime entityFactory m
    = (Rejected (VError TypeError message), m).
Proof.
  intros Hname Hne Hstate Hget Hin Hnot. unfold dispatch. rewrite Hname. simpl truthy.
  destruct (String.eqb_spec operationName EmptyString) as [->|_]; [contradiction|].
  simpl negb. cbv iota. rewrite Hstate, Hget, Hin.
  destruct input; try discriminate Hnot; eexists; reflexivity.
Qed.

Lemma dispatch_needs_iterable_input_witness :
  exists message,
    dispatch Counter.clock Counter.functions (Counter.request "add" "5") 1000
      Counter.new_Counter (Counter.busy (Counter.request "add" "5"))
    = (Rejected (VError TypeError message), Counter.busy (Counter.request "add" "5")).
Proof.
  apply (dispatch_needs_iterable_input Counter.clock Counter.functions
           (Counter.request "add" "5") 1000 Counter.new_Counter
           (Counter.busy (Counter.request "add" "5")) "add" (VObj []) (VNum 5) (UserFn 1)).
  - reflexivity.
  - discriminate.
  - reflexivity.
  - reflexivity.
  - reflexivity.
  - reflexivity.
Defined.

(* ===================================================================== *)
(** ** Further facts about the typed call shape                           *)
(* ===================================================================== *)

Module ProxyFacts.
Import JS JSON Classes Entity Trace Pred More ObjectFacts.

Lemma replace_own_same {A} (k : string) (x : A) (l : list (string * A)) :
  get_own k l = Some x -> replace_own k x l = l.
Proof.
  induction l as [|[k' x'] r IH]; simpl; [discriminate|].
  destruct (String.eqb k k'); [now intros [= ->] | intros H; now rewrite IH].
Qed.

Lemma set_same (o : Obj) (p : string) (s : Slot) :
  get_own p (own o) = Some s -> set o p s = o.
Proof.
  intros H. destruct o as [l ps]. unfold set, set_own. simpl in *.
  now rewrite H, replace_own_same.
Qed.

(** The functions of a proxied object are its own stubs. *)
Lemma proxied_functions (o : Obj) (p : string) :
  (is_function (get o p) = true ->
     get_own p (own (proxied o)) = Some (Fn (Stub p)) /\
     get (proxied o) p = Some (Fn (Stub p))) /\
  is_function (get (proxied o) p) = is_function (get o p).
Proof.
  destruct (stub_all (property_names o) o) as [_ H]. destruct (H p) as [Hown Hfun].
  fold (proxied o) in Hown, Hfun.
  split; [|exact Hfun]. intros Hp.
  rewrite Hp, (function_is_named o p Hp) in Hown. cbn [andb] in Hown.
  split; [exact Hown|]. unfold get. cbn [get_chain]. now rewrite Hown.
Qed.

Lemma stub_again (o : Obj) (names : list string) :
  fold_left stub_if_function names (proxied o) = proxied o.
Proof.
  induction names as [|n r IH]; [reflexivity|]. simpl.
  replace (stub_if_function (proxied o) n) with (proxied o); [exact IH|].
  unfold stub_if_function. destruct (is_function (get (proxied o) n)) eqn:E; [|reflexivity].
  destruct (proxied_functions o n) as [Hf Hsame]. rewrite Hsame in E.
  symmetry. apply set_same. now apply Hf.
Qed.

Lemma createEntityProxy_found (h : gmap nat Obj) (l : nat) (o : Obj) :
  h !! l = Some o -> createEntityProxy l h = Some (l, <[l := proxied o]> h).
Proof. intros H. unfold createEntityProxy. now rewrite H. Qed.

End ProxyFacts.

Import ProxyFacts.

(** X9. The typed call shape does what it is for.  When the callback calls
    a function member of the proxy, [proxy => proxy.p(...args)], one signal
    is sent, named after the member, its input the text of the array of
    arguments; no function of the user's is run on the way ([functions] has
    no part in the outcome). *)
Theorem typed_signal_records_call
    (functions : FunRef -> Obj -> list Value -> MethodResult)
    (entityId : EntityId.t) (entityObject : nat) (o : Obj) (p : string)
    (args : list Value) (m : Machine) :
  heap m !! entityObject = Some o ->
  is_function (get o p) = true ->
  let m' := snd (signalEntity entityId
                   (Typed entityObject (fun proxy => invoke functions proxy p args)) m) in
  fst (signalEntity entityId
         (Typed entityObject (fun proxy => invoke functions proxy p args)) m)
  = Normal VUndefined /\
  signals_of m' = (signals_of m ++ [Signal.mk entityId (VStr p) (stringify (VArr args))])%list /\
  heap m' = <[entityObject := proxied o]> (heap m) /\
  results_of m' = results_of m /\ state_of m' = state_of m /\ exists_of m' = exists_of m.
Proof.
  intros Hh Hp. cbv zeta. unfold signalEntity.
  rewrite (createEntityProxy_found _ _ _ Hh), lookup_insert_eq.
  destruct (proxied_functions o p) as [Hf _]. destruct (Hf Hp) as [_ Hget].
  unfold invoke. rewrite Hget. simpl. repeat split.
Qed.

Lemma typed_signal_records_call_witness :
  signals_of
    (snd (signalEntity Counter.other
            (Typed 7 (fun proxy => invoke Counter.functions proxy "reset" []))
            (with_heap {[ 7%nat := Counter.new_Counter tt ]}
                       (Counter.busy (Counter.request "add" "[5]")))))
  = [Signal.mk Counter.other (VStr "reset") (Some "[]")].
Proof.
  apply (typed_signal_records_call Counter.functions Counter.other 7
           (Counter.new_Counter tt) "reset" []
           (with_heap {[ 7%nat := Counter.new_Counter tt ]}
                      (Counter.busy (Counter.request "add" "[5]")))).
  - apply lookup_singleton_eq.
  - reflexivity.
Defined.

(** X10. When the callback of the typed call shape throws, or returns
    [undefined] or [null] instead of the record of a call, [signalEntity]
    throws to the user code and sends no signal; results, state and flag are
    untouched.  The caller's object has been proxied all the same. *)
Theorem typed_signal_without_record
    (entityId : EntityId.t) (entityObject : nat) (o : Obj)
    (action : Obj -> Outcome Value) (m : Machine) :
  heap m !! entityObject = Some o ->
  (exists e, action (proxied o) = Thrown e) \/
  action (proxied o) = Normal VUndefined \/ action (proxied o) = Normal VNull ->
  (exists e, fst (signalEntity entityId (Typed entityObject action) m) = Thrown e) /\
  snd (signalEntity entityId (Typed entityObject action) m)
  = with_heap (<[entityObject := proxied o]> (heap m)) m.
Proof.
  intros Hh Hact. unfold signalEntity.
  rewrite (createEntityProxy_found _ _ _ Hh), lookup_insert_eq.
  destruct Hact as [[e ->]|[-> | ->]]; simpl; split; (reflexivity || eexists; reflexivity).
Qed.

Lemma typed_signal_without_record_witness :
  snd (signalEntity Counter.other (Typed 7 (fun _ => Normal VUndefined))
         (with_heap {[ 7%nat := Counter.new_Counter tt ]}
                    (Counter.busy (Counter.request "add" "[5]"))))
  = with_heap (<[7%nat := proxied (Counter.new_Counter tt)]>
                 {[ 7%nat := Counter.new_Counter tt ]})
              (with_heap {[ 7%nat := Counter.new_Counter tt ]}
                         (Counter.busy (Counter.request "add" "[5]"))).
Proof.
  destruct (typed_signal_without_record Counter.other 7 (Counter.new_Counter tt)
              (fun _ => Normal VUndefined)
              (with_heap {[ 7%nat := Counter.new_Counter tt ]}
                         (Counter.busy (Counter.request "add" "[5]")))) as [_ H].
  - apply lookup_singleton_eq.
  - right. left. reflexivity.
  - exact H.
Defined.

(** X11. Proxying is idempotent: [createEntityProxy] on an object that it
    has already proxied leaves the object, and the whole store, as they
    are.  An object can so be used for any number of typed signals. *)
Theorem createEntityProxy_idempotent
    (h : gmap nat Obj) (entityObject : nat) (o : Obj) :
  h !! entityObject = Some o ->
  proxied (proxied o) = proxied o /\
  exists h1, createEntityProxy entityObject h = Some (entityObject, h1) /\
             createEntityProxy entityObject h1 = Some (entityObject, h1).
Proof.
  intros Hh.
  assert (Hp : proxied (proxied o) = proxied o) by apply stub_again.
  split; [exact Hp|].
  exists (<[entityObject := proxied o]> h). split; [now apply createEntityProxy_found|].
  rewrite (createEntityProxy_found _ _ (proxied o)) by apply lookup_insert_eq.
  now rewrite Hp, insert_insert_eq.
Qed.

Lemma createEntityProxy_idempotent_witness :
  proxied (proxied (Counter.new_Counter tt)) = proxied (Counter.new_Counter tt).
Proof.
  apply (createEntityProxy_idempotent {[ 7%nat := Counter.new_Counter tt ]} 7
           (Counter.new_Counter tt)).
  apply lookup_singleton_eq.
Defined.

(* ===================================================================== *)
(** ** Further facts about the context and the clock                      *)
(* ===================================================================== *)

Module ContextFacts.
Import JS JSON Classes Entity Trace Pred More BatchFacts LoopFacts.

Section Facts.
Variable clock : nat -> Z.
Variable functions : FunRef -> Obj -> list Value -> MethodResult.

(** A call on the context leaves [context.df] alone and does not turn the
    clock back; with a monotone clock, what it records took no negative
    time. *)
Lemma perform_frame (c : ContextCall) (m : Machine) (d : DurableEntityContext.t) (k : nat) :
  df m = Some d -> DurableEntityContext.startTime d = clock k ->
  (k <= reads m)%nat ->
  let m' := snd (perform clock functions c m) in
  df m' = Some d /\ (reads m <= reads m')%nat /\
  exists added : list OperationResult.t,
    results_of m' = (results_of m ++ map Some added)%list /\
    (monotone clock -> Forall (fun r => 0 <= OperationResult.duration r) added).
Proof.
  intros Hd Hstart Hk. cbv zeta. unfold perform. rewrite Hd.
  assert (Hnone : forall m1, df m1 = Some d -> (reads m <= reads m1)%nat ->
            results_of m1 = results_of m ->
            df m1 = Some d /\ (reads m <= reads m1)%nat /\
            exists added : list OperationResult.t,
              results_of m1 = (results_of m ++ map Some added)%list /\
              (monotone clock ->
               Forall (fun r => 0 <= OperationResult.duration r) added)).
  { intros m1 H1 H2 H3. split; [exact H1|]. split; [exact H2|].
    exists []. rewrite H3. simpl. rewrite app_nil_r. split; [reflexivity|constructor]. }
  assert (Hret : forall result m0, df m0 = Some d -> reads m0 = reads m ->
            results_of m0 = results_of m ->
            let m1 := return_ clock (DurableEntityContext.startTime d) result m0 in
            df m1 = Some d /\ (reads m <= reads m1)%nat /\
            exists added : list OperationResult.t,
              results_of m1 = (results_of m ++ map Some added)%list /\
              (monotone clock ->
               Forall (fun r => 0 <= OperationResult.duration r) added)).
  { intros result m0 Hd0 Hr0 Hres0 m1. subst m1.
    unfold return_, computeElapsedMilliseconds, new_Date.
    simpl. split; [exact Hd0|]. split; [lia|].
    eexists [_]. unfold results_of in *. simpl. rewrite Hres0. split; [reflexivity|].
    intros Hmono. constructor; [|constructor]. simpl. rewrite Hstart, Hr0.
    pose proof (Hmono k (reads m) Hk). lia. }
  destruct c as [i|v| |v| |id args|f]; simpl snd;
    try (first [ apply Hnone; [exact Hd | simpl; lia | reflexivity]
               | apply Hret; [exact Hd | reflexivity | reflexivity] ]).
  - destruct args as [arg2 arg3|entityObject action];
      [apply Hnone; [exact Hd | simpl; lia | reflexivity]|].
    unfold signalEntity.
    repeat match goal with
           | |- context [match ?x with _ => _ end] => destruct x
           end; simpl snd;
      (apply Hnone; [exact Hd | simpl; lia | reflexivity]).
  - unfold dispatch.
    repeat match goal with
           | |- context [match ?x with _ => _ end] => destruct x
           end; simpl snd;
      first [ apply Hnone; [exact Hd | simpl; lia | reflexivity]
            | apply Hret; [exact Hd | reflexivity | reflexivity] ].
Qed.

Lemma exec_frame (s : Script) (m : Machine) (d : DurableEntityContext.t) (k : nat) :
  df m = Some d -> DurableEntityContext.startTime d = clock k ->
  (k <= reads m)%nat ->
  let m' := snd (exec clock functions s m) in
  df m' = Some d /\ (reads m <= reads m')%nat /\
  exists added : list OperationResult.t,
    results_of m' = (results_of m ++ map Some added)%list /\
    (monotone clock -> Forall (fun r => 0 <= OperationResult.duration r) added).
Proof.
  revert m. induction s as [| e | k' IH | c k' IH]; intros m Hd Hstart Hk;
    try (cbv zeta; simpl; split; [exact Hd|]; split; [lia|];
         exists []; simpl; rewrite app_nil_r; split; [reflexivity|constructor]).
  cbv zeta. simpl.
  pose proof (perform_frame c m d k Hd Hstart Hk) as (Hd1 & Hr1 & a1 & Ha1 & Hok1).
  destruct (perform clock functions c m) as [o m1]. simpl in Hd1, Hr1, Ha1.
  destruct (IH o m1 Hd1 Hstart ltac:(lia)) as (Hd2 & Hr2 & a2 & Ha2 & Hok2).
  split; [exact Hd2|]. split; [lia|]. exists (a1 ++ a2)%list.
  split; [now rewrite Ha2, Ha1, map_app, app_assoc|].
  intros Hmono. apply Forall_app. split; [now apply Hok1 | now apply Hok2].
Qed.

Lemma durations_app_some (a : list (option OperationResult.t))
    (added : list OperationResult.t) :
  durations_ok a -> Forall (fun r => 0 <= OperationResult.duration r) added ->
  durations_ok (a ++ map Some added)%list.
Proof.
  intros Ha Hadd. apply Forall_app. split; [exact Ha|].
  apply Forall_fmap. exact Hadd.
Qed.

Lemma durations_set (a : list (option OperationResult.t)) (i : nat) (r : OperationResult.t) :
  durations_ok a -> 0 <= OperationResult.duration r -> durations_ok (array_set a i r).
Proof.
  intros Ha Hr. unfold array_set. destruct (i <? length a)%nat.
  - apply Forall_insert; assumption.
  - apply Forall_app. split; [exact Ha|]. apply Forall_app. split.
    + apply Forall_replicate. exact I.
    + constructor; [exact Hr | constructor].
Qed.

(** One turn of the loop: the context it leaves in [context.df], and its
    durations. *)
Lemma iteration_frame (fn : UserFunction) (b : DurableEntityBindingInfo.t) (i : nat)
    (m : Machine) (request : RequestMessage.t) :
  DurableEntityBindingInfo.batch b !! i = Some request ->
  let self := DurableEntityBindingInfo.self b in
  let d := DurableEntityContext.mk (EntityId.name self) (EntityId.key self) self
             (RequestMessage.name request) (negb (exists_of m)) request (clock (reads m)) in
  exists m', iteration clock functions fn b i m = Normal m' /\ df m' = Some d /\
             (monotone clock -> durations_ok (results_of m) ->
              durations_ok (results_of m')).
Proof.
  intros Hreq self d. unfold iteration, new_Date, getCurrentDurableEntityContext.
  rewrite Hreq. fold self. simpl batchState. fold (exists_of m). fold d.
  eexists. split; [reflexivity|].
  unfold try_fn, call_fn.
  pose proof (exec_frame (body fn d) (with_df d (tick m)) d (reads m) eq_refl eq_refl
                ltac:(simpl; lia)) as (Hd1 & Hr1 & added & Hadd & Hok).
  destruct (exec clock functions (body fn d) (with_df d (tick m))) as [c m1].
  simpl in Hd1, Hr1, Hadd.
  assert (Hset : forall error text,
            let r := OperationResult.mk error (clock (reads m1) - clock (reads m)) text in
            df (set_result i r (tick m1)) = Some d /\
            (monotone clock -> durations_ok (results_of m) ->
             durations_ok (results_of (set_result i r (tick m1))))).
  { intros error text r. split; [exact Hd1|]. intros Hmono Hdur.
    unfold results_of, set_result. simpl. apply durations_set.
    - fold (results_of m1). rewrite Hadd. apply durations_app_some; [exact Hdur|].
      now apply Hok.
    - simpl. pose proof (Hmono (reads m) (reads m1) ltac:(simpl in Hr1; lia)). lia. }
  destruct (if async fn then Completed else c) as [|e].
  - destruct (array_get (EntityState.results (batchState m1)) i).
    + split; [exact Hd1|]. intros Hmono Hdur. rewrite Hadd.
      apply durations_app_some; [exact Hdur | now apply Hok].
    + unfold computeElapsedMilliseconds, new_Date. apply Hset.
  - unfold computeElapsedMilliseconds, new_Date. apply Hset.
Qed.

Lemma loop_durations (fn : UserFunction) (b : DurableEntityBindingInfo.t)
    (indices : list nat) (m m' : Machine) :
  monotone clock -> durations_ok (results_of m) ->
  loop clock functions fn b indices m = Normal m' -> durations_ok (results_of m').
Proof.
  intros Hmono. revert m. induction indices as [|i r IH]; intros m Hdur; simpl.
  - now intros [= <-].
  - destruct (DurableEntityBindingInfo.batch b !! i) as [request|] eqn:E.
    + destruct (iteration_frame fn b i m request E) as (m1 & Hit & _ & Hd).
      rewrite Hit. apply IH. now apply Hd.
    + unfold iteration, new_Date, getCurrentDurableEntityContext. rewrite E. discriminate.
Qed.

End Facts.
End ContextFacts.

Import ContextFacts.

(** X12. The context of a turn.  For a request in the batch, the turn
    leaves in [context.df] the context built at its start, whatever the
    user code did: bound to that request, started at the clock reading
    taken first, and [isNewlyConstructed] exactly when the entity did not
    exist as the turn began (a [setState] or a [destructOnExit] during the
    turn does not change it).  An index outside the batch makes the turn
    throw before any user code runs. *)
Theorem turn_context
    (clock : nat -> Z) (functions : FunRef -> Obj -> list Value -> MethodResult)
    (fn : UserFunction) (b : DurableEntityBindingInfo.t) (i : nat) (m : Machine) :
  match DurableEntityBindingInfo.batch b !! i with
  | Some request =>
      exists m', iteration clock functions fn b i m = Normal m' /\
        df m' = Some (DurableEntityContext.mk
                        (EntityId.name (DurableEntityBindingInfo.self b))
                        (EntityId.key (DurableEntityBindingInfo.self b))
                        (DurableEntityBindingInfo.self b)
                        (RequestMessage.name request) (negb (exists_of m))
                        request (clock (reads m)))
  | None => exists e, iteration clock functions fn b i m = Thrown e
  end.
Proof.
  destruct (DurableEntityBindingInfo.batch b !! i) as [request|] eqn:E.
  - destruct (iteration_frame clock functions fn b i m request E) as (m' & H1 & H2 & _).
    exists m'. split; assumption.
  - unfold iteration, new_Date, getCurrentDurableEntityContext. rewrite E.
    eexists. reflexivity.
Qed.

(** X13. With a clock that does not go backwards, no result that [handle]
    hands over has a negative duration, whatever the user function does. *)
Theorem durations_not_negative
    (clock : nat -> Z) (functions : FunRef -> Obj -> list Value -> MethodResult)
    (fn : UserFunction) (b : DurableEntityBindingInfo.t) (m : Machine) :
  monotone clock ->
  match handle clock functions fn (Some b) m with
  | DoneWith returnState _ =>
      forall i r, EntityState.results returnState !! i = Some (Some r) ->
                  0 <= OperationResult.duration r
  | Fatal _ => True
  end.
Proof.
  intros Hmono. unfold handle.
  destruct (loop clock functions fn b _ _) as [m'|e] eqn:E; [|exact I].
  assert (Hd : durations_ok (results_of m')).
  { refine (loop_durations clock functions fn b _ _ m' Hmono _ E).
    unfold results_of. simpl. constructor. }
  intros i r Hi. unfold durations_ok, results_of in Hd. rewrite Forall_lookup in Hd.
  exact (Hd i (Some r) Hi).
Qed.

Lemma durations_not_negative_witness :
  match handle Counter.clock Counter.functions Counter.returns_twice
          (Counter.binding [Counter.request "add" "[5]"]) (initial ∅) with
  | DoneWith returnState _ =>
      forall i r, EntityState.results returnState !! i = Some (Some r) ->
                  0 <= OperationResult.duration r
  | Fatal _ => True
  end.
Proof.
  apply (durations_not_negative Counter.clock Counter.functions Counter.returns_twice
           (DurableEntityBindingInfo.mk Counter.self false None [Counter.request "add" "[5]"])
           (initial ∅)).
  intros a b H. unfold Counter.clock. lia.
Defined.

(* ===================================================================== *)
(** ** Further facts about the number of results                          *)
(* ===================================================================== *)

Module CountFacts.
Import JS JSON Classes Entity Trace Pred More BatchFacts LoopFacts TurnFacts.

Section Facts.
Variable clock : nat -> Z.
Variable functions : FunRef -> Obj -> list Value -> MethodResult.

(** A run of user code pushes as many results as it records return
    values. *)
Lemma exec_pushes (s : Script) (m : Machine) :
  exists rs : list OperationResult.t,
    results_of (snd (exec clock functions s m)) = (results_of m ++ map Some rs)%list /\
    length rs = length (returned (exec_steps clock functions s m)).
Proof.
  destruct (run_returned clock (exec_steps clock functions s m) m
              (exec_steps_own clock functions s m)) as (rs & Hres & Hmap & _).
  exists rs. rewrite (TraceFacts.exec_run clock functions s m). split; [exact Hres|].
  now rewrite <- Hmap, length_map.
Qed.

(** With at most one return value recorded, the [try] statement leaves
    exactly one more result, at the index of the request. *)
Lemma try_fn_one (fn : UserFunction) (d : DurableEntityContext.t) (i : nat)
    (startTime : Z) (m : Machine) :
  (length (returned (exec_steps clock functions (body fn d) m)) <= 1)%nat ->
  length (results_of m) = i ->
  exists r, results_of (try_fn clock functions fn d i startTime m)
            = (results_of m ++ [Some r])%list.
Proof.
  intros Hret Hlen. unfold try_fn, call_fn.
  destruct (exec_pushes (body fn d) m) as (added & Hadd & Hle).
  rewrite <- Hle in Hret.
  destruct (exec clock functions (body fn d) m) as [c m1]. simpl in Hadd.
  unfold results_of in *.
  assert (Hcases : added = [] \/ exists x, added = [x]).
  { destruct added as [|x [|y r]]; simpl in Hret; [auto | eauto | lia]. }
  destruct Hcases as [-> | [x ->]]; simpl in Hadd.
  - rewrite app_nil_r in Hadd.
    assert (Hget : array_get (EntityState.results (batchState m1)) i = None).
    { rewrite Hadd, <- Hlen. apply array_get_end. }
    destruct (if async fn then Completed else c) as [|e];
      [rewrite Hget|]; unfold computeElapsedMilliseconds, new_Date, set_result; simpl;
      rewrite Hadd, <- Hlen, array_set_end; eexists; reflexivity.
  - assert (Hget : array_get (EntityState.results (batchState m1)) i = Some x).
    { rewrite Hadd, <- Hlen. apply array_get_last. }
    destruct (if async fn then Completed else c) as [|e].
    + rewrite Hget, Hadd. eexists; reflexivity.
    + unfold computeElapsedMilliseconds, new_Date, set_result; simpl.
      rewrite Hadd, <- Hlen, array_set_last. eexists; reflexivity.
Qed.

Lemma recorded_app (fn : UserFunction) (b : DurableEntityBindingInfo.t)
    (xs ys : list nat) (m : Machine) :
  recorded clock functions fn b (xs ++ ys) m
  = (recorded clock functions fn b xs m ++
     match loop clock functions fn b xs m with
     | Normal m' => recorded clock functions fn b ys m'
     | Thrown _ => []
     end)%list.
Proof.
  revert m. induction xs as [|x r IH]; intros m; [reflexivity|].
  simpl. unfold iteration, new_Date.
  destruct (getCurrentDurableEntityContext b _ x _) as [d|e]; [|reflexivity].
  simpl. now rewrite IH.
Qed.

(** The loop over the requests [k .. k+n-1], entered with [k] results, when
    no turn records more than one return value: it adds one result per
    request and keeps those it found. *)
Lemma loop_one (fn : UserFunction) (b : DurableEntityBindingInfo.t) (n k : nat)
    (m : Machine) :
  Forall (fun c => (c <= 1)%nat) (recorded clock functions fn b (seq k n) m) ->
  length (results_of m) = k -> (k + n <= length (DurableEntityBindingInfo.batch b))%nat ->
  exists m' added, loop clock functions fn b (seq k n) m = Normal m' /\
                   results_of m' = (results_of m ++ map Some added)%list /\
                   length added = n.
Proof.
  revert k m. induction n as [|n IH]; intros k m Hret Hlen Hk.
  - exists m, []. simpl. now rewrite app_nil_r.
  - simpl in Hret |- *. unfold iteration, new_Date in *.
    unfold getCurrentDurableEntityContext in *.
    destruct (lookup_lt_is_Some_2 (DurableEntityBindingInfo.batch b) k ltac:(lia))
      as [request Hreq].
    rewrite Hreq in Hret |- *. apply Forall_cons in Hret as [Hone Hrest].
    match goal with
    | |- context [try_fn clock functions fn ?d k ?t ?m0] =>
        destruct (try_fn_one fn d k t m0 Hone Hlen) as [r Hr];
        destruct (IH (S k) (try_fn clock functions fn d k t m0) Hrest)
          as (m' & added & Hloop & Hres & Hadded)
    end.
    { rewrite Hr, length_app. simpl. unfold results_of in *. simpl in *. lia. }
    { lia. }
    exists m', (r :: added). split; [exact Hloop|].
    split; [|simpl; lia]. rewrite Hres, Hr, <- app_assoc. reflexivity.
Qed.

End Facts.
End CountFacts.

Import CountFacts.

(** X14. When no turn of the loop records more than one return value
    before the user code ends or gives control back (a [return], or a
    [dispatch] that runs to its end, records one; a [dispatch] that rejects
    or suspends records none), what [handle] hands over at [context.done]
    has exactly one result per request, in the order of the requests: the
    turn for request [i] starts with [i] results and appends one, and that
    one is found at index [i] in the end. *)
Theorem one_return_one_result
    (clock : nat -> Z) (functions : FunRef -> Obj -> list Value -> MethodResult)
    (fn : UserFunction) (b : DurableEntityBindingInfo.t) (m : Machine) :
  let m0 := with_batch (EntityState.mk (DurableEntityBindingInfo.exists_ b)
                                       (DurableEntityBindingInfo.state b) [] []) m in
  Forall (fun c => (c <= 1)%nat)
         (recorded clock functions fn b
            (seq 0 (length (DurableEntityBindingInfo.batch b))) m0) ->
  match handle clock functions fn (Some b) m with
  | DoneWith returnState _ =>
      length (EntityState.results returnState) = length (DurableEntityBindingInfo.batch b) /\
      forall i, (i < length (DurableEntityBindingInfo.batch b))%nat ->
        exists (mi mi' : Machine) (r : OperationResult.t),
          loop clock functions fn b (seq 0 i) m0 = Normal mi /\
          length (results_of mi) = i /\
          iteration clock functions fn b i mi = Normal mi' /\
          results_of mi' = (results_of mi ++ [Some r])%list /\
          EntityState.results returnState !! i = Some (Some r)
  | Fatal _ => True
  end.
Proof.
  intros m0 Hret. set (N := length (DurableEntityBindingInfo.batch b)) in *.
  destruct (loop_one clock functions fn b N 0 m0 Hret eq_refl ltac:(unfold N; lia))
    as (m' & added & Hloop & Hres & Hadded).
  unfold handle. fold m0. fold N. rewrite Hloop.
  split; [fold (results_of m'); rewrite Hres, length_app, length_map; simpl; exact Hadded|].
  intros i Hi.
  assert (Hsplit : seq 0 N = (seq 0 i ++ [i] ++ seq (S i) (N - S i))%list).
  { replace N with (i + S (N - S i))%nat at 1 by lia.
    rewrite seq_app. simpl. reflexivity. }
  rewrite Hsplit in Hret. rewrite recorded_app in Hret.
  apply Forall_app in Hret as [Hreti Hret'].
  destruct (loop_one clock functions fn b i 0 m0 Hreti eq_refl ltac:(lia))
    as (mi & addi & Hloopi & Hresi & Haddi).
  assert (Hleni : length (results_of mi) = i).
  { rewrite Hresi, length_app, length_map. simpl. exact Haddi. }
  rewrite Hloopi in Hret'.
  destruct (loop_one clock functions fn b 1 i mi) as (mi' & one & Hit & Hone & Hlen1).
  { rewrite recorded_app in Hret'. now apply Forall_app in Hret' as [H _]. }
  { exact Hleni. }
  { lia. }
  simpl in Hit.
  destruct (iteration clock functions fn b i mi) as [mi''|e] eqn:Eit; [|discriminate Hit].
  injection Hit as ->.
  destruct one as [|r [|r' rest]]; simpl in Hlen1; try lia. simpl in Hone.
  exists mi, mi', r. repeat (split; [assumption|]).
  rewrite Hsplit, !loop_app, Hloopi in Hloop. simpl in Hloop. rewrite Eit in Hloop.
  assert (Hkeep : forall n k (ma mb : Machine),
            loop clock functions fn b (seq k n) ma = Normal mb ->
            (i < length (results_of ma))%nat -> (i < k)%nat ->
            results_of mb !! i = results_of ma !! i).
  { induction n as [|n IHn]; intros k ma mb Hl Hlt Hik; simpl in Hl.
    - now injection Hl as ->.
    - destruct (iteration clock functions fn b k ma) as [mc|e] eqn:Ec; [|discriminate Hl].
      unfold iteration, new_Date in Ec.
      destruct (getCurrentDurableEntityContext b _ k _) as [d|e]; [|discriminate Ec].
      injection Ec as <-.
      pose proof (try_fn_keeps clock functions fn d k (clock (reads ma)) (with_df d (tick ma)))
        as (Hlen' & Hk' & _).
      rewrite (IHn (S k) _ mb Hl); [|unfold results_of in *; simpl in *; lia | lia].
      apply Hk'; [exact Hlt | lia]. }
  fold (results_of m').
  rewrite (Hkeep (N - S i)%nat (S i) mi' m' Hloop); [| rewrite Hone, length_app; simpl; lia | lia].
  rewrite Hone. apply list_lookup_middle. now rewrite Hleni.
Qed.

Lemma one_return_one_result_witness :
  match handle Counter.clock Counter.functions Counter.dispatch_then_return
          (Counter.binding [Counter.request "multiply" "[5]";
                            Counter.request "addLater" "[5]"]) (initial ∅) with
  | DoneWith returnState _ => length (EntityState.results returnState) = 2%nat
  | Fatal _ => False
  end.
Proof.
  pose proof (one_return_one_result Counter.clock Counter.functions
                Counter.dispatch_then_return
                (DurableEntityBindingInfo.mk Counter.self false None
                   [Counter.request "multiply" "[5]"; Counter.request "addLater" "[5]"])
                (initial ∅)) as H.
  cbv zeta in H.
  assert (Hrec : Forall (fun c => (c <= 1)%nat)
            (recorded Counter.clock Counter.functions Counter.dispatch_then_return
               (DurableEntityBindingInfo.mk Counter.self false None
                  [Counter.request "multiply" "[5]"; Counter.request "addLater" "[5]"])
               (seq 0 2)
               (with_batch (EntityState.mk false None [] []) (initial ∅)))).
  { vm_compute. repeat constructor. }
  specialize (H Hrec). unfold Counter.binding.
  destruct (handle Counter.clock Counter.functions Counter.dispatch_then_return
              (Some (DurableEntityBindingInfo.mk Counter.self false None
                       [Counter.request "multiply" "[5]"; Counter.request "addLater" "[5]"]))
              (initial ∅)) as [e|returnState m'] eqn:E.
  - vm_compute in E. discriminate E.
  - exact (proj1 H).
Defined.
